(** * A shallow embedding of the RAG chatbot back end

    The development follows the Python sources:

    - [AIGenerator] embeds [backend/ai_generator.py]: the bounded
      two-round tool-calling loop, the tools-free synthesis call and the
      top-level fallback.  The Anthropic client and the tool manager are
      external collaborators; they are modelled as arbitrary (possibly
      failing) transitions on an abstract world, and every call that the
      generator makes is logged so that call counts and request shapes can
      be stated.
    - [VectorStore], [DocumentProcessor] and [RAGSystem] cover the parts
      of the back end that the test-suite drives but whose modules are
      not part of the sources at hand; they are modelled from the
      specification text. *)

From stdpp Require Import base strings list gmap pretty.
From Stdlib Require Import ZArith Lia.

Local Open Scope string_scope.
Local Open Scope Z_scope.
Local Open Scope list_scope.

(** ** Python exceptions

    [Raise] stands for an exception whose class derives from [Exception],
    [RaiseBase] for one that derives from [BaseException] only
    ([KeyboardInterrupt], [SystemExit], [GeneratorExit]).  An
    [except Exception] clause catches the former and lets the latter
    through.  [str(e)] is the message. *)

Inductive PyException : Type :=
  | Raise (kind : string) (msg : string)
  | RaiseBase (kind : string) (msg : string).

Definition str_exc (e : PyException) : string :=
  match e with Raise _ m => m | RaiseBase _ m => m end.

(** [isinstance(e, Exception)] *)
Definition is_exception (e : PyException) : bool :=
  match e with Raise _ _ => true | RaiseBase _ _ => false end.

Inductive Outcome (A : Type) : Type :=
  | Returned (a : A)
  | Raised (e : PyException).
Arguments Returned {A} a.
Arguments Raised {A} e.

Module AIGenerator.

Section Generator.

(** The keyword dictionary carried by a tool-use block and the tool
    definition dictionaries are opaque to the generator. *)
Context {ToolInput ToolDef : Type}.

(** The external world (remote model, tool back ends). *)
Context {W : Type}.

(** [AIGenerator.SYSTEM_PROMPT] and [self.model]. *)
Variable SYSTEM_PROMPT : string.
Variable model_name : string.

(** Content blocks of an API reply.  Only text blocks carry a [text]
    attribute. *)
Inductive ContentBlock : Type :=
  | TextBlock (text : string)
  | ToolUseBlock (id name : string) (input : ToolInput)
  | ThinkingBlock (thinking : string).

Record Response : Type := mkResponse {
  stop_reason : string;
  content : list ContentBlock
}.

(** The dictionaries appended to [tool_results]. *)
Record ToolResult : Type := mkToolResult {
  tr_type : string;
  tool_use_id : string;
  tr_content : string
}.

Inductive MessageContent : Type :=
  | CText (s : string)
  | CBlocks (bs : list ContentBlock)
  | CResults (rs : list ToolResult).

Record Message : Type := mkMessage {
  role : string;
  msg_content : MessageContent
}.

(** Keyword arguments of [client.messages.create]; the keys [tools] and
    [tool_choice] are optional. *)
Record ApiParams : Type := mkApiParams {
  p_model : string;
  p_temperature : Z;
  p_max_tokens : Z;
  p_messages : list Message;
  p_system : string;
  p_tools : option (list ToolDef);
  p_tool_choice : option string
}.

(** Behaviour of [self.client.messages.create]. *)
Variable create : ApiParams -> W -> W * Outcome Response.

(** A tool manager object. *)
Record ToolManager : Type := mkToolManager {
  execute_tool : string -> ToolInput -> W -> W * Outcome string
}.

(** ** State and the error/state monad *)

Record State : Type := mkState {
  world : W;
  api_calls : list ApiParams;
  tool_calls : list (string * ToolInput)
}.

Definition M (A : Type) : Type := State -> State * Outcome A.

Definition ret {A} (a : A) : M A := fun st => (st, Returned a).

Definition raise {A} (e : PyException) : M A := fun st => (st, Raised e).

Definition bind {A B} (m : M A) (k : A -> M B) : M B :=
  fun st =>
    match m st with
    | (st', Returned a) => k a st'
    | (st', Raised e) => (st', Raised e)
    end.

(** [try: m  except Exception as e: h e]: an exception that does not
    derive from [Exception] is not caught. *)
Definition try_except {A} (m : M A) (h : PyException -> M A) : M A :=
  fun st =>
    match m st with
    | (st', Returned a) => (st', Returned a)
    | (st', Raised e) => if is_exception e then h e st' else (st', Raised e)
    end.

Notation "'do' x <- m ; k" := (bind m (fun x => k))
  (at level 10, x name, m at level 100, k at level 200).

(** [self.client.messages.create( **params )].  The request is logged as
    it stands when the call is made: [messages] is appended to only after
    the call has returned. *)
Definition messages_create (p : ApiParams) : M Response :=
  fun st =>
    let (w', r) := create p (world st) in
    (mkState w' (api_calls st ++ [p]) (tool_calls st), r).

(** [tool_manager.execute_tool(name, **input)]; on [None] the attribute
    lookup fails. *)
Definition call_execute_tool (tool_manager : option ToolManager)
    (name : string) (input : ToolInput) : M string :=
  match tool_manager with
  | None =>
      raise (Raise "AttributeError"
               "'NoneType' object has no attribute 'execute_tool'")
  | Some tm =>
      fun st =>
        let (w', r) := execute_tool tm name input (world st) in
        (mkState w' (api_calls st) (tool_calls st ++ [(name, input)]), r)
  end.

(** [response.content[0].text] *)
Definition first_text (response : Response) : M string :=
  match content response with
  | [] => raise (Raise "IndexError" "list index out of range")
  | TextBlock t :: _ => ret t
  | ToolUseBlock _ _ _ :: _ =>
      raise (Raise "AttributeError"
               "'ToolUseBlock' object has no attribute 'text'")
  | ThinkingBlock _ :: _ =>
      raise (Raise "AttributeError"
               "'ThinkingBlock' object has no attribute 'text'")
  end.

(** ** The generator *)

(** Truth value of [tools] ([None] and the empty list are false). *)
Definition tools_truthy (tools : option (list ToolDef)) : bool :=
  match tools with
  | Some (_ :: _) => true
  | _ => false
  end.

(** Truth value of [tool_manager]: an object is true, [None] is false. *)
Definition manager_truthy (tool_manager : option ToolManager) : bool :=
  match tool_manager with Some _ => true | None => false end.

(** Truth value of [conversation_history]. *)
Definition history_truthy (h : option string) : bool :=
  match h with
  | Some s => negb (String.eqb s "")
  | None => false
  end.

Definition newline : string := String (Ascii.ascii_of_nat 10) "".

Definition history_text (h : option string) : string :=
  match h with Some s => s | None => "None" end.

Definition build_system_content (conversation_history : option string)
  : string :=
  if history_truthy conversation_history
  then SYSTEM_PROMPT +:+ newline +:+ newline +:+ "Previous conversation:"
       +:+ newline +:+ history_text conversation_history
  else SYSTEM_PROMPT.

Definition user_message (c : MessageContent) : Message := mkMessage "user" c.
Definition assistant_message (c : MessageContent) : Message :=
  mkMessage "assistant" c.

(** [{**self.base_params, "messages": ..., "system": ...}] *)
Definition plain_params (messages : list Message) (system_content : string)
  : ApiParams :=
  mkApiParams model_name 0 800 messages system_content None None.

(** The request of a round: [tools] and [tool_choice] are added when
    [tools and round_num <= 2]. *)
Definition round_params (messages : list Message) (system_content : string)
    (tools : option (list ToolDef)) (round_num : Z) : ApiParams :=
  if tools_truthy tools && (round_num <=? 2)%Z
  then mkApiParams model_name 0 800 messages system_content
         tools (Some "auto")
  else plain_params messages system_content.

Definition _execute_round (messages : list Message) (system_content : string)
    (tools : option (list ToolDef)) (tool_manager : option ToolManager)
    (round_num : Z) : M (string + Response) :=
  let api_params := round_params messages system_content tools round_num in
  do response <- messages_create api_params;
  if String.eqb (stop_reason response) "tool_use" && manager_truthy tool_manager
  then ret (inr response)
  else do t <- first_text response; ret (inl t).

(** The body of the [for content_block in response.content] loop. *)
Fixpoint execute_blocks (tool_manager : option ToolManager)
    (blocks : list ContentBlock) (tool_results : list ToolResult)
  : M (list ToolResult) :=
  match blocks with
  | [] => ret tool_results
  | ToolUseBlock id name input :: rest =>
      do r <- try_except
                (do tool_result <- call_execute_tool tool_manager name input;
                 ret (mkToolResult "tool_result" id tool_result))
                (fun e =>
                   ret (mkToolResult "tool_result" id
                          ("Tool execution error: " +:+ str_exc e)));
      execute_blocks tool_manager rest (tool_results ++ [r])
  | _ :: rest => execute_blocks tool_manager rest tool_results
  end.

Definition _execute_tools (response : Response)
    (tool_manager : option ToolManager) : M (option (list ToolResult)) :=
  if negb (String.eqb (stop_reason response) "tool_use")
  then ret None
  else
    do tool_results <- execute_blocks tool_manager (content response) [];
    ret (match tool_results with [] => None | _ => Some tool_results end).

Definition _execute_final_round (messages : list Message)
    (system_content : string) : M string :=
  let final_params := plain_params messages system_content in
  do final_response <- messages_create final_params;
  first_text final_response.

Definition fallback_apology : string :=
  "I encountered an error processing your request. Please try again.".

Definition _fallback_response (query : string)
    (conversation_history : option string) (error : option string)
  : M string :=
  let system_content := build_system_content conversation_history in
  try_except
    (do response <- messages_create
                      (plain_params [user_message (CText query)]
                         system_content);
     first_text response)
    (fun _ => ret fallback_apology).

Definition no_results_apology : string :=
  "I encountered an error while processing your request.".

(** The [for round_num in range(1, 3)] loop, followed by the statement
    after the loop.  [messages] is the list being appended to. *)
Fixpoint rounds (round_nums : list Z) (messages : list Message)
    (system_content : string) (tools : option (list ToolDef))
    (tool_manager : option ToolManager) : M string :=
  match round_nums with
  | [] => _execute_final_round messages system_content
  | round_num :: later =>
      do response <- _execute_round messages system_content tools
                       tool_manager round_num;
      match response with
      | inl text => ret text
      | inr response =>
          let messages :=
            messages ++ [assistant_message (CBlocks (content response))] in
          do tool_results <- _execute_tools response tool_manager;
          match tool_results with
          | Some (r :: rs) =>
              rounds later (messages ++ [user_message (CResults (r :: rs))])
                system_content tools tool_manager
          | _ => ret no_results_apology
          end
      end
  end.

Definition generate_response (query : string)
    (conversation_history : option string)
    (tools : option (list ToolDef)) (tool_manager : option ToolManager)
  : M string :=
  try_except
    (let system_content := build_system_content conversation_history in
     let messages := [user_message (CText query)] in
     rounds [1; 2] messages system_content tools tool_manager)
    (fun e =>
       _fallback_response query conversation_history (Some (str_exc e))).

(** ** Vocabulary for the statements *)

(** The calls requested by a reply: its [tool_use] blocks, in order. *)
Fixpoint tool_requests (blocks : list ContentBlock)
  : list (string * ToolInput) :=
  match blocks with
  | [] => []
  | ToolUseBlock _ name input :: rest => (name, input) :: tool_requests rest
  | _ :: rest => tool_requests rest
  end.

(** A plain text completion: the reply does not signal tool use and its
    first content block is the text [t]. *)
Definition plain_text_completion (r : Response) (t : string) : Prop :=
  stop_reason r <> "tool_use" /\ exists rest, content r = TextBlock t :: rest.

(** The first content block is the text [t], whatever the stop reason. *)
Definition first_block_is_text (r : Response) (t : string) : Prop :=
  exists rest, content r = TextBlock t :: rest.

(** What the specification says of a tool batch, as a relation between the
    world before, the blocks of the reply, the world after and the results:
    every [tool_use] block is executed through the tool manager, in order;
    a call that returns contributes its value, a call that raises an
    exception deriving from [Exception] contributes the text
    [Tool execution error: <message>]; other blocks contribute nothing. *)
Inductive batch_run (tm : ToolManager)
  : W -> list ContentBlock -> W -> list ToolResult -> Prop :=
  | batch_done w :
      batch_run tm w [] w []
  | batch_text w t rest w' rs :
      batch_run tm w rest w' rs ->
      batch_run tm w (TextBlock t :: rest) w' rs
  | batch_thinking w t rest w' rs :
      batch_run tm w rest w' rs ->
      batch_run tm w (ThinkingBlock t :: rest) w' rs
  | batch_returned w id name input rest w1 value w' rs :
      execute_tool tm name input w = (w1, Returned value) ->
      batch_run tm w1 rest w' rs ->
      batch_run tm w (ToolUseBlock id name input :: rest) w'
        (mkToolResult "tool_result" id value :: rs)
  | batch_raised w id name input rest w1 e w' rs :
      execute_tool tm name input w = (w1, Raised e) ->
      is_exception e = true ->
      batch_run tm w1 rest w' rs ->
      batch_run tm w (ToolUseBlock id name input :: rest) w'
        (mkToolResult "tool_result" id
           ("Tool execution error: " +:+ str_exc e) :: rs).

(** The content of a tool result, given the outcome of the call. *)
Definition result_content (r : Outcome string) : string :=
  match r with
  | Returned value => value
  | Raised e => "Tool execution error: " +:+ str_exc e
  end.

(** The answer of the fallback path, given the outcome of its one call. *)
Definition fallback_answer (r : Outcome Response) : string :=
  match r with
  | Returned response =>
      match content response with
      | TextBlock t :: _ => t
      | _ => fallback_apology
      end
  | Raised _ => fallback_apology
  end.

(** The outcome of the fallback path, given the outcome of its one call:
    a failure that derives from [Exception] gives the apology, any other
    failure goes through. *)
Definition fallback_outcome (r : Outcome Response) : Outcome string :=
  match r with
  | Raised e => if is_exception e then Returned fallback_apology else Raised e
  | Returned _ => Returned (fallback_answer r)
  end.

(** The collaborators raise nothing but exceptions deriving from
    [Exception]. *)
Definition client_raises_exceptions_only : Prop :=
  forall p w w' e, create p w = (w', Raised e) -> is_exception e = true.

Definition tools_raise_exceptions_only (tm : ToolManager) : Prop :=
  forall name input w w' e,
    execute_tool tm name input w = (w', Raised e) -> is_exception e = true.

(** An outcome that is an answer, or an exception that no
    [except Exception] clause catches. *)
Definition returned_or_uncaught {A} (out : Outcome A) : Prop :=
  match out with
  | Returned _ => True
  | Raised e => is_exception e = false
  end.

(** The request of the fallback path. *)
Definition fallback_params (query : string)
    (conversation_history : option string) : ApiParams :=
  plain_params [user_message (CText query)]
    (build_system_content conversation_history).

(** The two turns a tool round appends to the history. *)
Definition next_messages (messages : list Message) (r : Response)
    (results : list ToolResult) : list Message :=
  (messages ++ [assistant_message (CBlocks (content r))])
    ++ [user_message (CResults results)].

(** Round [round_num], started in state [st] on the history [messages],
    is a tool round: the model replies [r] with tool use and executing
    [r] yields the non-empty result list [results], leaving state [st']. *)
Definition tool_round (tm : ToolManager) (messages : list Message)
    (system_content : string) (tools : option (list ToolDef))
    (round_num : Z) (st : State) (r : Response)
    (results : list ToolResult) (st' : State) : Prop :=
  let p := round_params messages system_content tools round_num in
  exists w1,
    create p (world st) = (w1, Returned r) /\
    stop_reason r = "tool_use" /\
    _execute_tools r (Some tm)
      (mkState w1 (api_calls st ++ [p]) (tool_calls st)) =
    (st', Returned (Some results)).

(** The ids of the [tool_use] blocks of a reply, in order. *)
Fixpoint tool_use_ids (blocks : list ContentBlock) : list string :=
  match blocks with
  | [] => []
  | ToolUseBlock id _ _ :: rest => id :: tool_use_ids rest
  | _ :: rest => tool_use_ids rest
  end.

(** The results of a batch as a list ([None] is the empty batch). *)
Definition results_list (results : option (list ToolResult))
  : list ToolResult :=
  match results with Some rs => rs | None => [] end.

(** The roles of a conversation of [k] completed tool rounds: the user's
    query, then [k] times an assistant turn answered by a user turn. *)
Definition turns (k : nat) : list string :=
  "user" :: concat (replicate k ["assistant"; "user"]).

(** The error text of a call attempted without a tool manager. *)
Definition no_manager_error : string :=
  "Tool execution error: 'NoneType' object has no attribute 'execute_tool'".

End Generator.

End AIGenerator.

(** ** A scripted client and tool manager

    The counterpart of the test-suite's mocks: [messages.create] and
    [execute_tool] each consume the next entry of a script
    ([side_effect = [...]]); an exhausted script raises [StopIteration]. *)

Module Mock.

Import AIGenerator.

Definition ToolInput : Type := list (string * string).
Definition ToolDef : Type := string.

Definition Reply : Type := @Response ToolInput.
Definition Request : Type := @ApiParams ToolInput ToolDef.

Record World : Type := mkWorld {
  replies : list (Outcome Reply);
  tool_outcomes : list (Outcome string)
}.

Definition stop_iteration : PyException := Raise "StopIteration" "".

Definition create (p : Request) (w : World) : World * Outcome Reply :=
  match replies w with
  | [] => (w, Raised stop_iteration)
  | r :: later => (mkWorld later (tool_outcomes w), r)
  end.

Definition tool_manager : @ToolManager ToolInput World :=
  mkToolManager
    (fun _ _ w =>
       match tool_outcomes w with
       | [] => (w, Raised stop_iteration)
       | r :: later => (mkWorld (replies w) later, r)
       end).

Definition start (rs : list (Outcome Reply)) (ts : list (Outcome string))
  : @State ToolInput ToolDef World :=
  mkState (mkWorld rs ts) [] [].

Definition prompt : string := "You are an AI assistant.".
Definition model : string := "claude-sonnet-4-20250514".

Definition generate (query : string) (history : option string)
    (tools : option (list ToolDef))
    (tm : option (@ToolManager ToolInput World))
    (rs : list (Outcome Reply)) (ts : list (Outcome string))
  : @State ToolInput ToolDef World * Outcome string :=
  generate_response prompt model create query history tools tm (start rs ts).

Definition tool_use_reply (id name : string) : Reply :=
  mkResponse "tool_use" [ToolUseBlock id name [("query", "test")]].

Definition text_reply (t : string) : Reply :=
  mkResponse "end_turn" [TextBlock t].

(** A reply that signals tool use but carries no [tool_use] block. *)
Definition empty_tool_use_reply : Reply :=
  mkResponse "tool_use" [TextBlock "Let me look that up."].

(** Two replies asking for a search, as in the sequential-calling tests. *)
Definition two_tool_replies : list (Outcome Reply) :=
  [Returned (tool_use_reply "tool_1" "search_course_content");
   Returned (tool_use_reply "tool_2" "search_course_content")].



End Mock.

(** ** Value types of the back end ([models]) *)

Module Models.

Record Lesson : Type := mkLesson {
  lesson_number : Z;
  lesson_title : string;
  lesson_link : option string
}.

Record Course : Type := mkCourse {
  title : string;
  course_link : option string;
  instructor : option string;
  lessons : list Lesson
}.

Record CourseChunk : Type := mkCourseChunk {
  course_title : string;
  chunk_lesson_number : option Z;
  chunk_content : string;
  chunk_index : nat
}.

End Models.

(** ** The vector store *)

Module VectorStore.

Import Models.

(** A metadata value and a where-clause of the collection API:
    [{field: value}] or [{"$and": [clause, ...]}]. *)
Inductive MetaValue : Type :=
  | VStr (s : string)
  | VInt (n : Z).

#[local] Set Warnings "-register-all".
Inductive Filter : Type :=
  | Clause (field : string) (value : MetaValue)
  | And (clauses : list Filter).

(** Modelled from the spec: [VectorStore._build_filter] lives in
    [vector_store.py], which is not among the sources; only its test
    [test_build_filter_logic] is.  Absent both arguments there is no
    filter; one present gives a single equality clause; both present give
    the conjunction of the two clauses, course title first. *)
Definition _build_filter (course_title : option string)
    (lesson_number : option Z) : option Filter :=
  match course_title, lesson_number with
  | None, None => None
  | Some t, None => Some (Clause "course_title" (VStr t))
  | None, Some n => Some (Clause "lesson_number" (VInt n))
  | Some t, Some n =>
      Some (And [Clause "course_title" (VStr t);
                 Clause "lesson_number" (VInt n)])
  end.

#[global] Instance MetaValue_eq_dec : EqDecision MetaValue.
Proof. solve_decision. Defined.

(** The metadata dictionary stored with a chunk. *)
Definition chunk_metadata (ch : CourseChunk) (field : string)
  : option MetaValue :=
  if String.eqb field "course_title" then Some (VStr (course_title ch))
  else if String.eqb field "lesson_number"
       then VInt <$> chunk_lesson_number ch
  else if String.eqb field "chunk_index"
       then Some (VInt (Z.of_nat (chunk_index ch)))
  else None.

(** A record passes a clause when it carries that value in that field,
    and a conjunction when it passes every clause; no filter lets every
    record through. *)
Fixpoint satisfies (meta : string -> option MetaValue) (f : Filter) : bool :=
  match f with
  | Clause field value => bool_decide (meta field = Some value)
  | And clauses => forallb (satisfies meta) clauses
  end.

Definition passes (f : option Filter) (ch : CourseChunk) : bool :=
  match f with
  | None => true
  | Some f => satisfies (chunk_metadata ch) f
  end.

(** Modelled from the spec: the two collections of the store, the catalog
    keyed by course title and the content keyed by (course title, chunk
    index), with no referential link between them. *)
Record Store : Type := mkStore {
  course_catalog : gmap string Course;
  course_content : gmap (string * nat) CourseChunk
}.

(** Modelled from the spec: [add_course_metadata] is an upsert by title. *)
Definition add_course_metadata (s : Store) (c : Course) : Store :=
  mkStore (<[title c := c]> (course_catalog s)) (course_content s).

(** Modelled from the spec: [add_course_content] upserts every chunk; the
    empty list changes nothing. *)
Definition add_course_content (s : Store) (chunks : list CourseChunk)
  : Store :=
  mkStore (course_catalog s)
    (foldl (fun m ch => <[(course_title ch, chunk_index ch) := ch]> m)
       (course_content s) chunks).

(** Modelled from the spec: [clear_all_data] recreates both collections
    from scratch. *)
Definition clear_all_data (s : Store) : Store := mkStore ∅ ∅.

(** Modelled from the spec: [get_existing_course_titles], a catalog read. *)
Definition get_existing_course_titles (s : Store) : gset string :=
  dom (course_catalog s).

Definition get_course_count (s : Store) : nat := size (course_catalog s).

(** The key under which a chunk is kept in the content collection. *)
Definition chunk_key (ch : CourseChunk) : string * nat :=
  (course_title ch, chunk_index ch).

End VectorStore.

(** ** The document processor *)

Module DocumentProcessor.

(** Whitespace characters of a text (the ASCII ones). *)
Definition is_whitespace (c : Ascii.ascii) : bool :=
  let n := Ascii.nat_of_ascii c in
  ((9 <=? n)%nat && (n <=? 13)%nat) || ((28 <=? n)%nat && (n <=? 32)%nat).

Definition space : Ascii.ascii := Ascii.ascii_of_nat 32.

(** Modelled from the spec: the normalisation step of [chunk_text]
    ([document_processor.py] is not among the sources): every run of
    whitespace becomes a single space.  [in_run] tells whether the
    previous character was whitespace. *)
Fixpoint collapse (in_run : bool) (text : string) : string :=
  match text with
  | EmptyString => EmptyString
  | String c rest =>
      if is_whitespace c
      then if in_run then collapse true rest
           else String space (collapse true rest)
      else String c (collapse false rest)
  end.

Definition normalize_whitespace (text : string) : string :=
  collapse false text.

Section Chunking.

(** The sentence-boundary splitter used for long texts; the
    specification leaves its exact cuts open. *)
Variable sentence_chunks : string -> Z -> Z -> list string.

(** Modelled from the spec: [DocumentProcessor.chunk_text].  A normalised
    text no longer than [chunk_size] is returned as one chunk; a longer
    one is handed to the sentence splitter. *)
Definition chunk_text (text : string) (chunk_size overlap : Z)
  : list string :=
  let normalized := normalize_whitespace text in
  if (Z.of_nat (String.length normalized) <=? chunk_size)%Z
  then [normalized]
  else sentence_chunks normalized chunk_size overlap.

End Chunking.

(** No two adjacent whitespace characters, and no whitespace other than
    the space. *)
Fixpoint single_spaced (prev_space : bool) (text : string) : bool :=
  match text with
  | EmptyString => true
  | String c rest =>
      if is_whitespace c
      then Ascii.eqb c space && negb prev_space && single_spaced true rest
      else single_spaced false rest
  end.

(** The words of a text: its maximal runs of non-whitespace characters. *)
Fixpoint words_from (current : string) (text : string) : list string :=
  match text with
  | EmptyString =>
      match current with EmptyString => [] | _ => [current] end
  | String c rest =>
      if is_whitespace c
      then match current with
           | EmptyString => words_from EmptyString rest
           | _ => current :: words_from EmptyString rest
           end
      else words_from (current +:+ String c EmptyString) rest
  end.

Definition words (text : string) : list string := words_from EmptyString text.

End DocumentProcessor.

(** ** The facade: folder ingestion *)

Module RAGSystem.

Import Models VectorStore.

Section Ingestion.

(** A candidate file of the folder and the document processor's parse of
    it: [None] for a document without a course title. *)
Variable Doc : Type.
Variable process_course_document : Doc -> option (Course * list CourseChunk).

(** Modelled from the spec: the loop of [RAGSystem.add_course_folder]
    ([rag_system.py] is not among the sources) over the candidate files.
    A file whose parsed course title is already in the catalog is
    skipped; any other parsed course is written to both collections and
    counted. *)
Fixpoint ingest (files : list Doc) (s : Store) : Store * (nat * nat) :=
  match files with
  | [] => (s, (0%nat, 0%nat))
  | f :: rest =>
      match process_course_document f with
      | Some (course, chunks) =>
          if decide (title course ∈ get_existing_course_titles s)
          then ingest rest s
          else
            let '(s', (courses, total_chunks)) :=
              ingest rest
                (add_course_content (add_course_metadata s course) chunks) in
            (s', (S courses, (length chunks + total_chunks)%nat))
      | None => ingest rest s
      end
  end.

(** Modelled from the spec: [RAGSystem.add_course_folder]; with
    [clear_existing] all stored data is purged first.  Returns the new
    store and the pair (courses added, chunks added). *)
Definition add_course_folder (files : list Doc) (clear_existing : bool)
    (s : Store) : Store * (nat * nat) :=
  ingest files (if clear_existing then clear_all_data s else s).

(** The course titles the folder's files parse to. *)
Fixpoint folder_titles (files : list Doc) : list string :=
  match files with
  | [] => []
  | f :: rest =>
      match process_course_document f with
      | Some (course, _) => title course :: folder_titles rest
      | None => folder_titles rest
      end
  end.

(** The parsed documents that a run over [files] writes when the
    catalog holds the titles [known], in the order of the files: a
    document is written when its title is neither in the catalog at the
    start nor the title of a document written before it. *)
Fixpoint new_documents (files : list Doc) (known : gset string)
  : list (Course * list CourseChunk) :=
  match files with
  | [] => []
  | f :: rest =>
      match process_course_document f with
      | Some (course, chunks) =>
          if decide (title course ∈ known) then new_documents rest known
          else (course, chunks) ::
               new_documents rest ({[title course]} ∪ known)
      | None => new_documents rest known
      end
  end.

End Ingestion.

(** Writing one parsed document to both collections, and the chunks and
    titles of a list of parsed documents. *)
Definition store_document (s : Store) (d : Course * list CourseChunk)
  : Store :=
  add_course_content (add_course_metadata s d.1) d.2.

Definition written_chunks (docs : list (Course * list CourseChunk))
  : list CourseChunk :=
  concat (snd <$> docs).

Definition written_titles (docs : list (Course * list CourseChunk))
  : list string :=
  (fun d => title d.1) <$> docs.

End RAGSystem.

(** ** The test application ([backend/tests/conftest.py], [test_client])

    The two collaborators of the query endpoint are the mocked RAG
    system's [session_manager.create_session] and [query]; they are
    arbitrary, possibly failing, transitions on a world, and every call
    is logged. *)

Module TestApp.

(** The outcome of a handler: the response body,
    [HTTPException(status_code, detail)], or an exception that the
    handler's [except Exception] clause does not catch. *)
Inductive HttpResult (A : Type) : Type :=
  | Ok (body : A)
  | HttpException (status_code : Z) (detail : string)
  | Uncaught (e : PyException).
Arguments Ok {A} body.
Arguments HttpException {A} status_code detail.
Arguments Uncaught {A} e.

(** [except Exception as e: raise HTTPException(status_code=500,
    detail=str(e))] *)
Definition to_http_error {A} (e : PyException) : HttpResult A :=
  if is_exception e then HttpException 500 (str_exc e) else Uncaught e.

Section App.

Context {W : Type}.

Record RagSystem : Type := mkRagSystem {
  create_session : W -> W * Outcome string;
  query : string -> string -> W ->
          W * Outcome (string * list string * list (option string))
}.

Inductive Event : Type :=
  | CreateSession
  | Query (text session : string).

Record AppState : Type := mkAppState {
  app_world : W;
  events : list Event
}.

Record QueryRequest : Type := mkQueryRequest {
  request_query : string;
  request_session_id : option string
}.

Record QueryResponse : Type := mkQueryResponse {
  answer : string;
  sources : list string;
  source_links : list (option string);
  session_id : string
}.

Definition call_create_session (rag : RagSystem) (st : AppState)
  : AppState * Outcome string :=
  let (w', r) := create_session rag (app_world st) in
  (mkAppState w' (events st ++ [CreateSession]), r).

Definition call_query (rag : RagSystem) (text session : string)
    (st : AppState)
  : AppState * Outcome (string * list string * list (option string)) :=
  let (w', r) := query rag text session (app_world st) in
  (mkAppState w' (events st ++ [Query text session]), r).

(** Truth value of [request.session_id]. *)
Definition session_truthy (s : option string) : bool :=
  match s with
  | Some s => negb (String.eqb s "")
  | None => false
  end.

(** [query_documents]: the handler of [POST /api/query]. *)
Definition query_documents (rag : RagSystem) (request : QueryRequest)
    (st : AppState) : AppState * HttpResult QueryResponse :=
  let (st1, session) :=
    if session_truthy (request_session_id request)
    then (st, Returned (default "" (request_session_id request)))
    else call_create_session rag st in
  match session with
  | Raised e => (st1, to_http_error e)
  | Returned session =>
      match call_query rag (request_query request) session st1 with
      | (st2, Returned (a, s, l)) => (st2, Ok (mkQueryResponse a s l session))
      | (st2, Raised e) => (st2, to_http_error e)
      end
  end.

End App.

End TestApp.

(** [mock_rag_system]: fixed return values, and a variant whose [query]
    raises as in [test_query_endpoint_error_handling]. *)

Module MockRag.

Import TestApp.

Definition rag : @RagSystem unit :=
  mkRagSystem
    (fun w => (w, Returned "test-session-123"))
    (fun _ _ w =>
       (w, Returned ("This is a test response from the RAG system.",
                     ["Test Course"], [Some "https://example.com/course"]))).

Definition failing_rag : @RagSystem unit :=
  mkRagSystem
    (fun w => (w, Returned "test-session-123"))
    (fun _ _ w => (w, Raised (Raise "Exception" "Internal error"))).

Definition start : @AppState unit := mkAppState tt [].

End MockRag.

(** ** The sample chunks of the test-suite ([conftest.py],
    [sample_course_chunks]) *)

Module Fixtures.

Import Models DocumentProcessor.

(** [" ".join(ws)] *)
Fixpoint join_words (ws : list string) : string :=
  match ws with
  | [] => EmptyString
  | [w] => w
  | w :: rest => w +:+ String space (join_words rest)
  end.

(** [range(0, n, step)] for a positive [step]. *)
Definition range_step (n step : nat) : list nat :=
  (fun k => k * step)%nat <$> seq 0 ((n + step - 1) / step).

(** [lesson_contents.get(n, f"Content for lesson {n}")] *)
Definition lesson_content (lesson_contents : gmap Z string) (n : Z)
  : string :=
  default ("Content for lesson " +:+ pretty n) (lesson_contents !! n).

(** The inner loop: one chunk per group of [chunk_size] words, appended to
    [chunks] with [chunk_index = len(chunks)]. *)
Definition append_lesson_chunks (chunk_size : nat) (course_title : string)
    (number : Z) (ws : list string) (chunks : list CourseChunk)
  : list CourseChunk :=
  foldl (fun chunks i =>
           chunks ++ [mkCourseChunk course_title (Some number)
                        (join_words (take chunk_size (drop i ws)))
                        (length chunks)])
    chunks (range_step (length ws) chunk_size).

(** The fixture, for any course and any table of lesson texts; the
    words of a text are those of [str.split()]. *)
Definition sample_course_chunks (course : Course)
    (lesson_contents : gmap Z string) : list CourseChunk :=
  foldl (fun chunks lesson =>
           append_lesson_chunks 5 (title course) (lesson_number lesson)
             (words (lesson_content lesson_contents (lesson_number lesson)))
             chunks)
    [] (lessons course).

(** A word: not empty and free of whitespace. *)
Fixpoint no_whitespace (s : string) : bool :=
  match s with
  | EmptyString => true
  | String c rest => negb (is_whitespace c) && no_whitespace rest
  end.

Definition is_word (w : string) : Prop :=
  w <> EmptyString /\ no_whitespace w = true.

End Fixtures.

(** * Properties of the generator *)

Module AIGeneratorFacts.

Import AIGenerator.

Section Facts.

Context {ToolInput ToolDef W : Type}.
Variable SYSTEM_PROMPT model_name : string.
Variable create :
  @ApiParams ToolInput ToolDef -> W -> W * Outcome (@Response ToolInput).

Local Abbreviation State := (@State ToolInput ToolDef W).
Local Abbreviation ToolManager := (@ToolManager ToolInput W).
Local Abbreviation messages_create := (messages_create create).
Local Abbreviation build_system_content := (build_system_content SYSTEM_PROMPT).
Local Abbreviation plain_params := (plain_params model_name).
Local Abbreviation round_params := (round_params model_name).
Local Abbreviation fallback_params := (fallback_params SYSTEM_PROMPT model_name).
Local Abbreviation _execute_round := (_execute_round model_name create).
Local Abbreviation _execute_final_round :=
  (_execute_final_round model_name create).
Local Abbreviation _fallback_response :=
  (_fallback_response SYSTEM_PROMPT model_name create).
Local Abbreviation rounds := (rounds model_name create).
Local Abbreviation generate_response :=
  (generate_response SYSTEM_PROMPT model_name create).

Implicit Types (st : State) (tm : ToolManager).

(** ** One step of each primitive *)

Lemma messages_create_run p st :
  messages_create p st =
  (mkState (create p (world st)).1 (api_calls st ++ [p]) (tool_calls st),
   (create p (world st)).2).
Proof.
  unfold AIGenerator.messages_create. by destruct (create p (world st)).
Qed.

Lemma first_text_state (r : Response) st :
  (first_text r st).1 = st.
Proof.
  unfold first_text. destruct (content r) as [|[] ?]; reflexivity.
Qed.

Lemma first_text_of_text (r : Response) t st :
  first_block_is_text r t -> first_text r st = (st, Returned t).
Proof.
  intros [rest E]. unfold first_text. by rewrite E.
Qed.

Lemma call_execute_tool_some tm name input st :
  call_execute_tool (Some tm) name input st =
  (mkState (execute_tool tm name input (world st)).1 (api_calls st)
     (tool_calls st ++ [(name, input)]),
   (execute_tool tm name input (world st)).2).
Proof.
  simpl. by destruct (execute_tool tm name input (world st)).
Qed.

(** ** The tool batch *)

(** One requested call: its outcome becomes the result's content, a
    failure deriving from [Exception] being replaced by the error text,
    and the loop goes on; any other failure leaves the loop. *)
Lemma execute_blocks_tool_use (tool_manager : option ToolManager)
    id name input rest acc st :
  execute_blocks tool_manager (ToolUseBlock id name input :: rest) acc st =
  let out := call_execute_tool tool_manager name input st in
  match out.2 with
  | Raised e =>
      if is_exception e
      then execute_blocks tool_manager rest
             (acc ++ [mkToolResult "tool_result" id
                        (result_content (Raised e))]) out.1
      else (out.1, Raised e)
  | Returned value =>
      execute_blocks tool_manager rest
        (acc ++ [mkToolResult "tool_result" id value]) out.1
  end.
Proof.
  cbn [execute_blocks]. unfold bind, try_except, ret.
  destruct (call_execute_tool tool_manager name input st) as [st1 [v|e]];
    cbn [fst snd]; [reflexivity|].
  by destruct (is_exception e).
Qed.

(** With a tool manager the loop either follows [batch_run] to the end,
    logging exactly the requested calls, or is left at the first call
    that raises outside [Exception], having logged the calls made so
    far. *)
Lemma execute_blocks_run tm blocks : forall acc st,
  (exists w' rs,
     batch_run tm (world st) blocks w' rs /\
     execute_blocks (Some tm) blocks acc st =
     (mkState w' (api_calls st) (tool_calls st ++ tool_requests blocks),
      Returned (acc ++ rs))) \/
  (exists st' e made,
     execute_blocks (Some tm) blocks acc st = (st', Raised e) /\
     is_exception e = false /\
     api_calls st' = api_calls st /\
     tool_calls st' = tool_calls st ++ made /\
     made `prefix_of` tool_requests blocks /\
     exists name input w w',
       execute_tool tm name input w = (w', Raised e)).
Proof.
  induction blocks as [|b rest IH]; intros acc st.
  - left. exists (world st), []. split; [constructor|].
    simpl. unfold ret. rewrite !app_nil_r. by destruct st.
  - destruct b as [t|id name input|t].
    + destruct (IH acc st) as [(w' & rs & Hb & E)|H]; [left|by right].
      exists w', rs. split; [by constructor|exact E].
    + rewrite execute_blocks_tool_use, call_execute_tool_some.
      cbv zeta. cbn [fst snd].
      destruct (execute_tool tm name input (world st)) as [w1 r] eqn:Ex.
      cbn [fst snd].
      set (st1 := mkState w1 (api_calls st)
                    (tool_calls st ++ [(name, input)])).
      assert (forall acc',
                (exists w' rs,
                   batch_run tm w1 rest w' rs /\
                   execute_blocks (Some tm) rest acc' st1 =
                   (mkState w' (api_calls st)
                      (tool_calls st ++ tool_requests
                         (ToolUseBlock id name input :: rest)),
                    Returned (acc' ++ rs))) \/
                (exists st' e made,
                   execute_blocks (Some tm) rest acc' st1 = (st', Raised e) /\
                   is_exception e = false /\
                   api_calls st' = api_calls st /\
                   tool_calls st' = tool_calls st ++ made /\
                   made `prefix_of` tool_requests
                     (ToolUseBlock id name input :: rest) /\
                   exists name input w w',
                     execute_tool tm name input w = (w', Raised e)))
        as Hrest.
      { intros acc'.
        destruct (IH acc' st1) as [(w' & rs & Hb & E)|
                                   (st' & e & made & E & He & Ha & Ht & Hp & Hx)].
        - left. exists w', rs. split; [exact Hb|]. rewrite E.
          subst st1. cbn [world api_calls tool_calls tool_requests].
          by rewrite <- !app_assoc.
        - right. exists st', e, ((name, input) :: made).
          repeat split; try done.
          + rewrite Ht. subst st1. cbn [tool_calls].
            by rewrite <- app_assoc.
          + cbn [tool_requests]. by apply prefix_cons. }
      destruct r as [value|e].
      * destruct (Hrest (acc ++ [mkToolResult "tool_result" id value]))
          as [(w' & rs & Hb & E)|H]; [left|by right].
        exists w', (mkToolResult "tool_result" id value :: rs).
        split; [by econstructor|]. rewrite E. by rewrite <- !app_assoc.
      * destruct (is_exception e) eqn:He.
        -- destruct (Hrest (acc ++ [mkToolResult "tool_result" id
                                      (result_content (Raised e))]))
             as [(w' & rs & Hb & E)|H]; [left|by right].
           exists w', (mkToolResult "tool_result" id
                         ("Tool execution error: " +:+ str_exc e) :: rs).
           split; [by eapply batch_raised|].
           rewrite E. by rewrite <- !app_assoc.
        -- right. exists st1, e, [(name, input)].
           repeat split; try done.
           ++ cbn [tool_requests]. apply prefix_cons, prefix_nil.
           ++ by eexists _, _, _, _.
    + destruct (IH acc st) as [(w' & rs & Hb & E)|H]; [left|by right].
      exists w', rs. split; [by constructor|exact E].
Qed.


(** Without a tool manager every requested call fails on the attribute
    lookup: nothing is executed and the state is untouched. *)
Lemma execute_blocks_none blocks : forall acc st,
  exists rs,
    execute_blocks (None : option ToolManager) blocks acc st =
    (st, Returned rs).
Proof.
  induction blocks as [|b rest IH]; intros acc st.
  - by exists acc.
  - destruct b as [t|id name input|t]; [apply IH| |apply IH].
    rewrite execute_blocks_tool_use. apply IH.
Qed.


(** What a batch does to the two logs: it issues no model call, and the
    tools it runs are the reply's requests when there is a tool manager
    and the reply signals tool use (none otherwise), cut short only by
    a call that raises outside [Exception]. *)
Lemma execute_tools_run (r : Response) (tool_manager : option ToolManager)
    st :
  let out := _execute_tools r tool_manager st in
  let requested :=
    if String.eqb (stop_reason r) "tool_use" && manager_truthy tool_manager
    then tool_requests (content r) else [] in
  api_calls out.1 = api_calls st /\
  exists made,
    tool_calls out.1 = tool_calls st ++ made /\
    made `prefix_of` requested /\
    match out.2 with
    | Returned _ => made = requested
    | Raised e => is_exception e = false
    end.
Proof.
  cbv zeta. unfold _execute_tools.
  destruct (String.eqb (stop_reason r) "tool_use") eqn:Hs; cbn [negb andb].
  - unfold bind. destruct tool_manager as [tm|]; cbn [manager_truthy].
    + destruct (execute_blocks_run tm (content r) [] st)
        as [(w' & rs & _ & E)|(st' & e & made & E & He & Ha & Ht & Hp & _)];
        rewrite E; cbn [fst snd].
      * split; [done|]. by exists (tool_requests (content r)).
      * split; [done|]. by exists made.
    + destruct (execute_blocks_none (content r) [] st) as (rs & E).
      rewrite E. cbn [fst snd]. split; [done|].
      exists []. by rewrite app_nil_r.
  - cbn. split; [done|]. exists []. by rewrite app_nil_r.
Qed.

(** The tool batch issues no model call, and what leaves it is a result
    or an exception outside [Exception]. *)
Lemma execute_tools_total (r : Response) (tool_manager : option ToolManager)
    st :
  api_calls (_execute_tools r tool_manager st).1 = api_calls st /\
  returned_or_uncaught (_execute_tools r tool_manager st).2.
Proof.
  destruct (execute_tools_run r tool_manager st) as (Ha & made & _ & _ & Ho).
  split; [exact Ha|].
  by destruct (_execute_tools r tool_manager st).2.
Qed.

(** ** Rounds *)

Lemma execute_round_run msgs sys tools (tool_manager : option ToolManager)
    n st :
  let p := round_params msgs sys tools n in
  let st1 := mkState (create p (world st)).1 (api_calls st ++ [p])
               (tool_calls st) in
  _execute_round msgs sys tools tool_manager n st =
  match (create p (world st)).2 with
  | Returned r =>
      if String.eqb (stop_reason r) "tool_use" && manager_truthy tool_manager
      then (st1, Returned (inr r))
      else match first_text r st1 with
           | (st2, Returned t) => (st2, Returned (inl t))
           | (st2, Raised e) => (st2, Raised e)
           end
  | Raised e => (st1, Raised e)
  end.
Proof.
  intros p st1. unfold AIGenerator._execute_round, bind.
  fold p. rewrite messages_create_run. fold st1.
  destruct (create p (world st)).2 as [r|e]; [|reflexivity].
  destruct (String.eqb (stop_reason r) "tool_use" &&
            manager_truthy tool_manager); [reflexivity|].
  by destruct (first_text r st1) as [st2 [t|e]].
Qed.

Lemma execute_round_calls msgs sys tools (tool_manager : option ToolManager)
    n st :
  let out := _execute_round msgs sys tools tool_manager n st in
  api_calls out.1 = api_calls st ++ [round_params msgs sys tools n] /\
  tool_calls out.1 = tool_calls st.
Proof.
  cbv zeta. rewrite execute_round_run.
  destruct (create _ (world st)).2 as [r|e]; [|done].
  destruct (_ && _); [done|].
  match goal with |- context [first_text r ?s] =>
    pose proof (first_text_state r s) as Hs;
    destruct (first_text r s) as [st2 [t|e]] end;
    simpl in Hs; subst st2; done.
Qed.

Lemma rounds_cons n later msgs sys tools (tool_manager : option ToolManager)
    st :
  rounds (n :: later) msgs sys tools tool_manager st =
  match _execute_round msgs sys tools tool_manager n st with
  | (st1, Returned (inl text)) => (st1, Returned text)
  | (st1, Returned (inr response)) =>
      match _execute_tools response tool_manager st1 with
      | (st2, Returned (Some (r :: rs))) =>
          rounds later
            ((msgs ++ [assistant_message (CBlocks (content response))])
               ++ [user_message (CResults (r :: rs))])
            sys tools tool_manager st2
      | (st2, Returned _) => (st2, Returned no_results_apology)
      | (st2, Raised e) => (st2, Raised e)
      end
  | (st1, Raised e) => (st1, Raised e)
  end.
Proof.
  cbn [AIGenerator.rounds]. unfold bind at 1.
  destruct (_execute_round msgs sys tools tool_manager n st)
    as [st1 [[text|response]|e]]; try reflexivity.
  unfold bind.
  destruct (_execute_tools response tool_manager st1)
    as [st2 [[[|r rs]|]|e]]; reflexivity.
Qed.

Lemma final_round_run msgs sys st :
  let p := plain_params msgs sys in
  let st1 := mkState (create p (world st)).1 (api_calls st ++ [p])
               (tool_calls st) in
  _execute_final_round msgs sys st =
  match (create p (world st)).2 with
  | Returned r => first_text r st1
  | Raised e => (st1, Raised e)
  end.
Proof.
  intros p st1. unfold AIGenerator._execute_final_round, bind. fold p.
  rewrite messages_create_run. fold st1.
  by destruct (create p (world st)).2.
Qed.

(** The loop over [ns] issues at most one round request per round
    number, followed by at most one synthesis request. *)
Lemma rounds_calls ns (tool_manager : option ToolManager) sys tools :
  forall msgs st,
  exists round_calls synthesis,
    api_calls (rounds ns msgs sys tools tool_manager st).1 =
      api_calls st ++ round_calls ++ synthesis /\
    (length round_calls <= length ns)%nat /\
    (length synthesis <= 1)%nat /\
    Forall (fun p => exists m n, p = round_params m sys tools n)
      round_calls /\
    Forall (fun p => exists m, p = plain_params m sys) synthesis.
Proof.
  induction ns as [|n later IH]; intros msgs st.
  - cbn [AIGenerator.rounds]. rewrite final_round_run.
    exists [], [plain_params msgs sys].
    split; [|repeat split; simpl; eauto].
    destruct (create _ (world st)).2 as [r|e]; [|done].
    by rewrite first_text_state.
  - rewrite rounds_cons.
    destruct (execute_round_calls msgs sys tools tool_manager n st)
      as [Ha _].
    assert (Forall (fun p => exists m n, p = round_params m sys tools n)
              [round_params msgs sys tools n]) as Hone by eauto.
    destruct (_execute_round msgs sys tools tool_manager n st)
      as [st1 [[text|response]|e]]; cbn [fst] in Ha.
    + exists [round_params msgs sys tools n], [].
      repeat split; simpl; eauto with lia.
    + destruct (execute_tools_total response tool_manager st1) as [Hc _].
      destruct (_execute_tools response tool_manager st1)
        as [st2 [[[|r rs]|]|e]]; cbn [fst] in Hc.
      * exists [round_params msgs sys tools n], [].
        split; [cbn [fst app]; congruence|repeat split; simpl; eauto with lia].
      * destruct (IH ((msgs ++
                         [assistant_message (CBlocks (content response))])
                        ++ [user_message (CResults (r :: rs))]) st2)
          as (rc & sc & Hn & Hl & Hs & Hrc & Hsc).
        exists (round_params msgs sys tools n :: rc), sc. split.
        -- rewrite Hn, Hc, Ha. by rewrite <- !app_assoc.
        -- repeat split; [simpl; lia|done|by constructor; eauto|done].
      * exists [round_params msgs sys tools n], [].
        split; [cbn [fst app]; congruence|repeat split; simpl; eauto with lia].
      * exists [round_params msgs sys tools n], [].
        split; [cbn [fst app]; congruence|repeat split; simpl; eauto with lia].
    + exists [round_params msgs sys tools n], [].
      repeat split; simpl; eauto with lia.
Qed.

(** ** The fallback path *)

Lemma fallback_run q h err st :
  let p := fallback_params q h in
  _fallback_response q h err st =
  (mkState (create p (world st)).1 (api_calls st ++ [p]) (tool_calls st),
   fallback_outcome (create p (world st)).2).
Proof.
  intros p. unfold AIGenerator._fallback_response, try_except, bind.
  change (AIGenerator.plain_params model_name [user_message (CText q)]
            (build_system_content h)) with p.
  rewrite messages_create_run.
  destruct (create p (world st)) as [w [r|e]]; cbn [fst snd fallback_outcome].
  - unfold first_text, fallback_answer.
    destruct (content r) as [|[] ?]; reflexivity.
  - by destruct (is_exception e).
Qed.

Lemma fallback_outcome_ok (r : Outcome (@Response ToolInput)) :
  returned_or_uncaught (fallback_outcome r).
Proof.
  destruct r as [r|e]; [exact I|]. cbn.
  by destruct (is_exception e) eqn:He.
Qed.

Lemma generate_response_unfold q h tools (tool_manager : option ToolManager)
    st :
  generate_response q h tools tool_manager st =
  match rounds [1; 2] [user_message (CText q)] (build_system_content h)
          tools tool_manager st with
  | (st', Returned a) => (st', Returned a)
  | (st', Raised e) =>
      if is_exception e
      then _fallback_response q h (Some (str_exc e)) st'
      else (st', Raised e)
  end.
Proof. reflexivity. Qed.

(** ** Stepping through rounds *)

Local Abbreviation tool_round := (tool_round model_name create).

Lemma execute_tools_some_nonempty (r : Response)
    (tool_manager : option ToolManager) st st' res :
  _execute_tools r tool_manager st = (st', Returned (Some res)) ->
  res <> [].
Proof.
  unfold _execute_tools.
  destruct (negb _); [discriminate|]. unfold bind.
  destruct (execute_blocks _ _ _ _) as [st1 [[|x xs]|e]];
    unfold ret; intros [= <- <-]; discriminate.
Qed.

(** A tool round moves the loop to the next round on the extended
    history, having issued exactly its own request. *)
Lemma tool_round_step tm msgs sys tools n later st r res st' :
  tool_round tm msgs sys tools n st r res st' ->
  rounds (n :: later) msgs sys tools (Some tm) st =
    rounds later (next_messages msgs r res) sys tools (Some tm) st' /\
  api_calls st' = api_calls st ++ [round_params msgs sys tools n].
Proof.
  intros (w1 & Hc & Hs & Ht).
  pose proof (execute_tools_some_nonempty _ _ _ _ _ Ht) as Hne.
  rewrite rounds_cons, execute_round_run, Hc. cbn [fst snd].
  rewrite Hs, String.eqb_refl. cbn [manager_truthy andb]. rewrite Ht.
  destruct res as [|x xs]; [done|]. split; [reflexivity|].
  destruct (execute_tools_total r (Some tm)
              (mkState w1 (api_calls st ++ [round_params msgs sys tools n])
                 (tool_calls st))) as [Hcalls _].
  by rewrite Ht in Hcalls.
Qed.

(** A reply that does not signal tool use ends the loop with the text of
    its first block, or raises if there is none. *)
Lemma text_round_step (tool_manager : option ToolManager) msgs sys tools n
    later st w1 r :
  create (round_params msgs sys tools n) (world st) = (w1, Returned r) ->
  stop_reason r <> "tool_use" \/ tool_manager = None ->
  rounds (n :: later) msgs sys tools tool_manager st =
  first_text r
    (mkState w1 (api_calls st ++ [round_params msgs sys tools n])
       (tool_calls st)).
Proof.
  intros Hc Hs.
  rewrite rounds_cons, execute_round_run, Hc. cbn [fst snd].
  assert (String.eqb (stop_reason r) "tool_use" &&
          manager_truthy tool_manager = false) as ->.
  { destruct Hs as [Hs| ->]; [|by rewrite andb_false_r].
    apply String.eqb_neq in Hs. by rewrite Hs. }
  by destruct (first_text r _) as [st2 [t|e]].
Qed.

(** ** What can leave the generator *)

(** A batch raises only what a tool raised, and only outside
    [Exception]. *)
Lemma execute_tools_raise_origin (r : Response)
    (tool_manager : option ToolManager) st st' e :
  _execute_tools r tool_manager st = (st', Raised e) ->
  is_exception e = false /\
  exists tm name input w w',
    tool_manager = Some tm /\
    execute_tool tm name input w = (w', Raised e).
Proof.
  unfold _execute_tools. destruct (negb _); [discriminate|].
  unfold bind. destruct tool_manager as [tm|].
  - destruct (execute_blocks_run tm (content r) [] st)
      as [(w' & rs & _ & E)|
          (st2 & e2 & made & E & He & _ & _ & _ & name & input & w & w' & Hx)];
      rewrite E; [discriminate|].
    intros [= <- <-]. split; [done|]. by eexists tm, _, _, _, _.
  - destruct (execute_blocks_none (content r) [] st) as (rs & E).
    rewrite E. discriminate.
Qed.

(** The loop raises an exception deriving from [Exception] (a failed
    model call, a reply without a leading text), or one outside it that
    the client or a tool raised. *)
Lemma rounds_raise_origin ns (tool_manager : option ToolManager) sys tools :
  forall msgs st st' e,
  rounds ns msgs sys tools tool_manager st = (st', Raised e) ->
  is_exception e = true \/
  (exists p w w', create p w = (w', Raised e)) \/
  (exists tm name input w w',
     tool_manager = Some tm /\
     execute_tool tm name input w = (w', Raised e)).
Proof.
  assert (forall (r : Response) st st' e,
            first_text r st = (st', Raised e) -> is_exception e = true)
    as Hft.
  { intros r st st' e. unfold first_text.
    destruct (content r) as [|[] ?]; unfold raise, ret;
      intros [= _ <-]; reflexivity. }
  induction ns as [|n later IH]; intros msgs st st' e.
  - cbn [AIGenerator.rounds]. rewrite final_round_run.
    destruct (create _ (world st)) as [w1 [r|e1]] eqn:Hc; cbn [fst snd].
    + intros Hf. left. by eapply Hft.
    + intros [= _ <-]. right; left. by eexists _, _, _.
  - rewrite rounds_cons, execute_round_run.
    destruct (create _ (world st)) as [w1 [r|e1]] eqn:Hc; cbn [fst snd].
    + destruct (_ && _).
      * destruct (_execute_tools r tool_manager _)
          as [st2 [[[|x xs]|]|e2]] eqn:Et; try discriminate.
        -- apply IH.
        -- intros [= _ <-].
           destruct (execute_tools_raise_origin _ _ _ _ _ Et) as [_ H].
           by right; right.
      * destruct (first_text r _) as [st2 [t|e2]] eqn:Hf; [discriminate|].
        intros [= _ <-]. left. by eapply Hft.
    + intros [= _ <-]. right; left. by eexists _, _, _.
Qed.

(** What leaves [generate_response] is an answer, or an exception outside
    [Exception] that the client or a tool raised. *)
Lemma generate_response_outcome q h tools
    (tool_manager : option ToolManager) st :
  match (generate_response q h tools tool_manager st).2 with
  | Returned _ => True
  | Raised e =>
      is_exception e = false /\
      ((exists p w w', create p w = (w', Raised e)) \/
       (exists tm name input w w',
          tool_manager = Some tm /\
          execute_tool tm name input w = (w', Raised e)))
  end.
Proof.
  rewrite generate_response_unfold.
  destruct (rounds [1; 2] _ _ tools tool_manager st) as [st1 [a|e]] eqn:Hr;
    [exact I|].
  destruct (is_exception e) eqn:He.
  - rewrite fallback_run. cbn [snd].
    destruct (create (fallback_params q h) (world st1)) as [w2 [r|e2]] eqn:Hc;
      cbn [snd fallback_outcome]; [exact I|].
    destruct (is_exception e2) eqn:He2; [exact I|].
    split; [done|]. left. by eexists _, _, _.
  - cbn [snd]. split; [done|].
    destruct (rounds_raise_origin _ _ _ _ _ _ _ _ Hr) as [H|H];
      [congruence|exact H].
Qed.

(** With collaborators that raise nothing outside [Exception],
    [generate_response] always returns an answer. *)
Lemma generate_response_returns q h tools
    (tool_manager : option ToolManager) st :
  client_raises_exceptions_only create ->
  (forall tm, tool_manager = Some tm -> tools_raise_exceptions_only tm) ->
  exists st' answer,
    generate_response q h tools tool_manager st = (st', Returned answer).
Proof.
  intros Hclient Htools.
  pose proof (generate_response_outcome q h tools tool_manager st) as Ho.
  destruct (generate_response q h tools tool_manager st) as [st' [a|e]];
    [eauto|].
  cbn [snd] in Ho. destruct Ho as [He [(p & w & w' & Hx)|
                                     (tm & name & input & w & w' & -> & Hx)]].
  - apply Hclient in Hx. congruence.
  - apply (Htools tm eq_refl) in Hx. congruence.
Qed.

(** ** Claims about the generator *)

(** C9: whatever the model client and the tool manager do, one
    invocation of [generate_response] ends, with an answer or with an
    exception outside [Exception] that a collaborator raised, and issues
    at most four model calls: at most two round requests, then at most
    one synthesis request, then at most one fallback request.  The loop
    is a structural recursion over the two round numbers. *)
Theorem generate_response_at_most_four_calls q h tools
    (tool_manager : option ToolManager) st :
  exists st' out round_calls synthesis fallback,
    generate_response q h tools tool_manager st = (st', out) /\
    returned_or_uncaught out /\
    (client_raises_exceptions_only create ->
     (forall tm, tool_manager = Some tm -> tools_raise_exceptions_only tm) ->
     exists answer, out = Returned answer) /\
    api_calls st' = api_calls st ++ round_calls ++ synthesis ++ fallback /\
    (length round_calls <= 2)%nat /\
    (length synthesis <= 1)%nat /\
    (length fallback <= 1)%nat /\
    (length (round_calls ++ synthesis ++ fallback) <= 4)%nat /\
    Forall (fun p => exists m n,
              p = round_params m (build_system_content h) tools n)
      round_calls /\
    Forall (fun p => exists m, p = plain_params m (build_system_content h))
      synthesis /\
    Forall (fun p => p = fallback_params q h) fallback.
Proof.
  pose proof (generate_response_outcome q h tools tool_manager st) as Ho.
  pose proof (generate_response_returns q h tools tool_manager st) as Hret.
  rewrite generate_response_unfold in *.
  destruct (rounds_calls [1; 2] tool_manager (build_system_content h) tools
              [user_message (CText q)] st)
    as (rc & sc & Hn & Hl & Hs & Hrc & Hsc).
  cbn [length] in Hl.
  assert (forall (st' : State) (out : Outcome string),
            (client_raises_exceptions_only create ->
             (forall tm, tool_manager = Some tm ->
                         tools_raise_exceptions_only tm) ->
             exists st'' answer, (st', out) = (st'', Returned answer)) ->
            client_raises_exceptions_only create ->
            (forall tm, tool_manager = Some tm ->
                        tools_raise_exceptions_only tm) ->
            exists answer, out = Returned answer) as Hproj.
  { intros st' out H Hc Ht. destruct (H Hc Ht) as (? & a & [= _ ->]). eauto. }
  destruct (rounds [1; 2] _ _ tools tool_manager st) as [st1 [a|e]];
    cbn [fst] in Hn.
  - exists st1, (Returned a), rc, sc, []. rewrite app_nil_r.
    repeat split; try done; [eauto|simpl; lia|rewrite length_app; lia].
  - destruct (is_exception e) eqn:He.
    + rewrite fallback_run in *.
      eexists _, _, rc, sc, [fallback_params q h].
      split; [reflexivity|]. cbn [api_calls].
      split; [apply fallback_outcome_ok|].
      split; [by apply (Hproj _ _ Hret)|].
      repeat split; try done.
      * by rewrite Hn, <- !app_assoc.
      * rewrite !length_app. simpl. lia.
      * by constructor.
    + exists st1, (Raised e), rc, sc, []. rewrite app_nil_r.
      repeat split; try done;
        [by apply (Hproj _ _ Hret)|simpl; lia|rewrite length_app; lia].
Qed.


(** C10: without a tool manager no tool is ever executed.  Even on a
    reply with stop reason [tool_use] the generator only makes the round-1
    call and returns the text of its first block, going to the fallback
    path when that fails; the log of executed tools is unchanged. *)
Theorem no_tool_manager_no_tool_execution q h tools st :
  let p := round_params [user_message (CText q)] (build_system_content h)
             tools 1 in
  generate_response q h tools None st =
    try_except (bind (messages_create p) first_text)
      (fun e => _fallback_response q h (Some (str_exc e))) st /\
  tool_calls (generate_response q h tools None st).1 = tool_calls st.
Proof.
  intros p.
  assert (generate_response q h tools None st =
          try_except (bind (messages_create p) first_text)
            (fun e => _fallback_response q h (Some (str_exc e))) st) as E.
  { rewrite generate_response_unfold. unfold try_except, bind.
    rewrite messages_create_run.
    destruct (create p (world st)) as [w1 [r|e]] eqn:Hc; cbn [fst snd].
    - rewrite (text_round_step None _ _ _ _ _ _ _ _ Hc) by (by right).
      reflexivity.
    - rewrite rounds_cons, execute_round_run. fold p. rewrite Hc.
      reflexivity. }
  split; [exact E|]. rewrite E. unfold try_except, bind.
  rewrite messages_create_run.
  destruct (create p (world st)) as [w1 [r|e]]; cbn [fst snd].
  - match goal with |- context [first_text r ?s] =>
      pose proof (first_text_state r s) as Hs;
      destruct (first_text r s) as [st2 [t|e]] end;
      simpl in Hs; subst st2; [done|].
    destruct (is_exception e); [by rewrite fallback_run|done].
  - destruct (is_exception e); [by rewrite fallback_run|done].
Qed.

(** A reply without [tool_use] blocks runs no tool and gives no
    result. *)
Lemma execute_blocks_no_requests (tool_manager : option ToolManager)
    blocks : forall acc st,
  tool_requests blocks = [] ->
  execute_blocks tool_manager blocks acc st = (st, Returned acc).
Proof.
  induction blocks as [|b rest IH]; intros acc st Hq; [reflexivity|].
  destruct b as [t|id name input|t]; [by apply IH|discriminate|by apply IH].
Qed.

Lemma batch_run_no_requests tm w blocks w' rs :
  batch_run tm w blocks w' rs ->
  tool_requests blocks = [] -> w' = w /\ rs = [].
Proof.
  induction 1; cbn [tool_requests]; intros; auto; discriminate.
Qed.

(** In any round, a tool-use reply without a single [tool_use] block ends
    the loop on the spot with the apology. *)
Lemma zero_results_round tm msgs sys tools n later st w1 r :
  create (round_params msgs sys tools n) (world st) = (w1, Returned r) ->
  stop_reason r = "tool_use" ->
  tool_requests (content r) = [] ->
  rounds (n :: later) msgs sys tools (Some tm) st =
  (mkState w1 (api_calls st ++ [round_params msgs sys tools n])
     (tool_calls st),
   Returned no_results_apology).
Proof.
  intros Hc Hs Hq.
  rewrite rounds_cons, execute_round_run, Hc. cbn [fst snd].
  rewrite Hs, String.eqb_refl. cbn [manager_truthy andb].
  unfold _execute_tools. rewrite Hs, String.eqb_refl. cbn [negb].
  unfold bind. by rewrite execute_blocks_no_requests.
Qed.

(** C5: when a round's tool-use reply yields no tool result at all, be it
    in round 1 or in round 2, [generate_response] returns the generic
    apology at once: the round's own request is the last model call. *)
Theorem zero_tool_results_end_with_apology q h tools tm st :
  let sys := build_system_content h in
  let m0 := [user_message (CText q)] in
  let p1 := round_params m0 sys tools 1 in
  (forall w1 r1,
     create p1 (world st) = (w1, Returned r1) ->
     stop_reason r1 = "tool_use" ->
     tool_requests (content r1) = [] ->
     generate_response q h tools (Some tm) st =
     (mkState w1 (api_calls st ++ [p1]) (tool_calls st),
      Returned "I encountered an error while processing your request."))
  /\
  (forall r1 res1 st1 w2 r2,
     tool_round tm m0 sys tools 1 st r1 res1 st1 ->
     let p2 := round_params (next_messages m0 r1 res1) sys tools 2 in
     create p2 (world st1) = (w2, Returned r2) ->
     stop_reason r2 = "tool_use" ->
     tool_requests (content r2) = [] ->
     generate_response q h tools (Some tm) st =
     (mkState w2 (api_calls st ++ [p1; p2]) (tool_calls st1),
      Returned "I encountered an error while processing your request.")).
Proof.
  intros sys m0 p1. split.
  - intros w1 r1 Hc Hs Hq. rewrite generate_response_unfold.
    fold sys m0. by rewrite (zero_results_round tm _ _ _ _ _ _ _ _ Hc Hs Hq).
  - intros r1 res1 st1 w2 r2 H1 p2 Hc Hs Hq.
    rewrite generate_response_unfold. fold sys m0.
    destruct (tool_round_step _ _ _ _ _ [2] _ _ _ _ H1) as [-> Hcalls].
    rewrite (zero_results_round tm _ _ _ _ _ _ _ _ Hc Hs Hq).
    fold p2. rewrite Hcalls. fold p1. by rewrite <- app_assoc.
Qed.



(** C1 (amended): provided no exception escapes the round sequence, a
    first reply that is a plain text completion costs exactly one model
    call and its text is the answer; one tool round followed by a reply
    without tool use costs exactly two calls; two tool rounds cost
    exactly three calls, the third being the synthesis call. *)
Theorem call_count_contract q h tools tm st :
  let sys := build_system_content h in
  let m0 := [user_message (CText q)] in
  let p1 := round_params m0 sys tools 1 in
  (forall w1 r1 t,
     create p1 (world st) = (w1, Returned r1) ->
     plain_text_completion r1 t ->
     generate_response q h tools (Some tm) st =
     (mkState w1 (api_calls st ++ [p1]) (tool_calls st), Returned t))
  /\
  (forall r1 res1 st1 st' answer,
     tool_round tm m0 sys tools 1 st r1 res1 st1 ->
     let p2 := round_params (next_messages m0 r1 res1) sys tools 2 in
     (forall w2 r2, create p2 (world st1) = (w2, Returned r2) ->
                    stop_reason r2 <> "tool_use") ->
     rounds [1; 2] m0 sys tools (Some tm) st = (st', Returned answer) ->
     generate_response q h tools (Some tm) st = (st', Returned answer) /\
     api_calls st' = api_calls st ++ [p1; p2])
  /\
  (forall r1 res1 st1 r2 res2 st2 st' answer,
     tool_round tm m0 sys tools 1 st r1 res1 st1 ->
     let m1 := next_messages m0 r1 res1 in
     tool_round tm m1 sys tools 2 st1 r2 res2 st2 ->
     rounds [1; 2] m0 sys tools (Some tm) st = (st', Returned answer) ->
     generate_response q h tools (Some tm) st = (st', Returned answer) /\
     api_calls st' =
       api_calls st ++
         [p1; round_params m1 sys tools 2;
          plain_params (next_messages m1 r2 res2) sys]).
Proof.
  intros sys m0 p1. split; [|split].
  - intros w1 r1 t Hc [Hs Ht]. rewrite generate_response_unfold.
    fold sys m0.
    rewrite (text_round_step _ _ _ _ _ _ _ _ _ Hc) by (by left).
    by rewrite (first_text_of_text _ _ _ Ht).
  - intros r1 res1 st1 st' answer H1 p2 Hno Hr.
    rewrite generate_response_unfold. fold sys m0. rewrite Hr.
    split; [reflexivity|].
    destruct (tool_round_step _ _ _ _ _ [2] _ _ _ _ H1) as [E Hc1].
    rewrite E in Hr. fold p2 in Hr.
    rewrite rounds_cons, execute_round_run in Hr. fold p2 in Hr.
    destruct (create p2 (world st1)) as [w2 [r2|e]] eqn:Hc;
      cbn [fst snd] in Hr; [|discriminate].
    specialize (Hno _ _ eq_refl). apply String.eqb_neq in Hno.
    rewrite Hno in Hr. cbn [andb] in Hr.
    match type of Hr with context [first_text r2 ?s] =>
      pose proof (first_text_state r2 s) as Hst;
      destruct (first_text r2 s) as [s2 [t|e]] end;
      [|discriminate].
    injection Hr as <- _. cbn [fst] in Hst. subst s2.
    cbn [api_calls]. rewrite Hc1. fold p1. by rewrite <- app_assoc.
  - intros r1 res1 st1 r2 res2 st2 st' answer H1 m1 H2 Hr.
    rewrite generate_response_unfold. fold sys m0. rewrite Hr.
    split; [reflexivity|]. subst m1.
    destruct (tool_round_step _ _ _ _ _ [2] _ _ _ _ H1) as [E1 Hc1].
    destruct (tool_round_step _ _ _ _ _ [] _ _ _ _ H2) as [E2 Hc2].
    rewrite E1, E2 in Hr.
    cbn [AIGenerator.rounds] in Hr. rewrite final_round_run in Hr.
    destruct (create _ (world st2)) as [w3 [r3|e]];
      cbn [fst snd] in Hr; [|discriminate].
    match type of Hr with context [first_text r3 ?s] =>
      pose proof (first_text_state r3 s) as Hst;
      destruct (first_text r3 s) as [s2 [t|e]] end;
      [|discriminate].
    injection Hr as <- _. cbn [fst] in Hst. subst s2.
    cbn [api_calls]. rewrite Hc2, Hc1. fold p1. by rewrite <- !app_assoc.
Qed.

(** ** Further properties of the tool batch *)

(** The loop appends one result per [tool_use] block, carrying the
    block's id, whatever the tool manager is or does. *)
Lemma execute_blocks_ids (tool_manager : option ToolManager) blocks :
  forall acc st st' res,
  execute_blocks tool_manager blocks acc st = (st', Returned res) ->
  exists new,
    res = acc ++ new /\
    tool_use_id <$> new = tool_use_ids blocks /\
    Forall (fun x => tr_type x = "tool_result") new.
Proof.
  induction blocks as [|b rest IH]; intros acc st st' res E.
  - injection E as _ <-. exists []. by rewrite app_nil_r.
  - destruct b as [t|id name input|t]; [by apply (IH _ _ _ _ E)| |
                                        by apply (IH _ _ _ _ E)].
    rewrite execute_blocks_tool_use in E. cbv zeta in E.
    destruct (call_execute_tool tool_manager name input st).2 as [v|e];
      [|destruct (is_exception e); [|discriminate]].
    + destruct (IH _ _ _ _ E) as (new & -> & Hids & Hty).
      eexists (_ :: new). split; [by rewrite <- app_assoc|].
      split; [cbn; by rewrite Hids|by constructor].
    + destruct (IH _ _ _ _ E) as (new & -> & Hids & Hty).
      eexists (_ :: new). split; [by rewrite <- app_assoc|].
      split; [cbn; by rewrite Hids|by constructor].
Qed.

Lemma execute_tools_ids (r : Response) (tool_manager : option ToolManager)
    st st' res :
  stop_reason r = "tool_use" ->
  _execute_tools r tool_manager st = (st', Returned res) ->
  tool_use_id <$> results_list res = tool_use_ids (content r) /\
  Forall (fun x => tr_type x = "tool_result") (results_list res) /\
  (res = None <-> tool_use_ids (content r) = []).
Proof.
  intros Hs. unfold _execute_tools. rewrite Hs, String.eqb_refl.
  cbn [negb]. unfold bind.
  destruct (execute_blocks tool_manager (content r) [] st)
    as [st1 [rs|e]] eqn:E; [|discriminate].
  destruct (execute_blocks_ids _ _ _ _ _ _ E) as (new & -> & Hids & Hty).
  cbn [app]. unfold ret. destruct new as [|x xs]; intros [= _ <-].
  - by repeat split.
  - repeat split; try done. intros Hn. by rewrite <- Hids in Hn.
Qed.

(** X1: Every [tool_use] block of a tool-use reply is answered by exactly
    one [tool_result] carrying its id, in the order of the blocks: with
    or without a tool manager, and whether the calls return or raise an
    exception deriving from [Exception].  The batch is [None] exactly
    when the reply has no [tool_use] block.  The only other way out of
    the batch is an exception outside [Exception] raised by a tool,
    which goes through. *)
Theorem tool_results_answer_each_request (r : Response)
    (tool_manager : option ToolManager) st :
  stop_reason r = "tool_use" ->
  exists st' out,
    _execute_tools r tool_manager st = (st', out) /\
    match out with
    | Returned res =>
        tool_use_id <$> results_list res = tool_use_ids (content r) /\
        Forall (fun x => tr_type x = "tool_result") (results_list res) /\
        (res = None <-> tool_use_ids (content r) = [])
    | Raised e =>
        is_exception e = false /\
        exists tm name input w w',
          tool_manager = Some tm /\
          execute_tool tm name input w = (w', Raised e)
    end /\
    ((forall tm, tool_manager = Some tm -> tools_raise_exceptions_only tm) ->
     exists res, out = Returned res).
Proof.
  intros Hs.
  destruct (_execute_tools r tool_manager st) as [st' [res|e]] eqn:Et;
    exists st'; eexists; (split; [reflexivity|]).
  - split; [by eapply execute_tools_ids|]. eauto.
  - pose proof (execute_tools_raise_origin _ _ _ _ _ Et) as Ho.
    split; [exact Ho|]. intros Htm.
    destruct Ho as (He & tm & name & input & w & w' & -> & Hx).
    apply (Htm tm eq_refl) in Hx. congruence.
Qed.

Lemma execute_blocks_no_manager blocks : forall acc st,
  exists new,
    execute_blocks (None : option ToolManager) blocks acc st =
      (st, Returned (acc ++ new)) /\
    Forall (fun x => tr_content x = no_manager_error) new.
Proof.
  induction blocks as [|b rest IH]; intros acc st.
  - exists []. by rewrite app_nil_r.
  - destruct b as [t|id name input|t]; [apply IH| |apply IH].
    rewrite execute_blocks_tool_use. cbv zeta.
    cbn [call_execute_tool raise fst snd result_content str_exc
         is_exception].
    change ("Tool execution error: " +:+ _) with no_manager_error.
    destruct (IH (acc ++ [mkToolResult "tool_result" id no_manager_error])
                st) as (new & E & Hall).
    eexists (_ :: new). split.
    + rewrite E. by rewrite <- app_assoc.
    + by constructor.
Qed.

(** X2: Called without a tool manager, the batch executes nothing and leaves
    the state as it is: every requested call is answered by the text of
    the failed attribute lookup. *)
Theorem execute_tools_without_manager (r : Response) st :
  exists res,
    _execute_tools r (None : option ToolManager) st = (st, Returned res) /\
    Forall (fun x => tr_content x = no_manager_error) (results_list res).
Proof.
  unfold _execute_tools.
  destruct (negb _); [by exists None|].
  unfold bind.
  destruct (execute_blocks_no_manager (content r) [] st)
    as (new & E & Hall).
  rewrite E. cbn [app]. destruct new; eexists; split; try reflexivity; done.
Qed.

(** A round hands a reply on to the tool batch only when the client
    returned it with stop reason [tool_use] and a tool manager is there. *)
Lemma execute_round_tool_use msgs sys tools
    (tool_manager : option ToolManager) n st st1 r :
  _execute_round msgs sys tools tool_manager n st = (st1, Returned (inr r)) ->
  stop_reason r = "tool_use" /\ manager_truthy tool_manager = true /\
  exists w1,
    create (round_params msgs sys tools n) (world st) = (w1, Returned r).
Proof.
  rewrite execute_round_run.
  destruct (create _ (world st)) as [w1 [r'|e]] eqn:Hc; cbn [fst snd];
    [|discriminate].
  destruct (String.eqb (stop_reason r') "tool_use") eqn:Hs; cbn [andb].
  - destruct (manager_truthy tool_manager) eqn:Hm.
    + intros [= _ <-]. apply String.eqb_eq in Hs. eauto.
    + by destruct (first_text r' _) as [? [?|?]].
  - by destruct (first_text r' _) as [? [?|?]].
Qed.

(** The tools executed by the loop over [ns]: the requests of at most
    [length ns] tool-use replies, batch after batch; only an exception
    outside [Exception] leaving the loop can cut the last batch short. *)
Lemma rounds_tool_batches ns (tool_manager : option ToolManager) sys tools :
  forall msgs st,
  exists (replies : list Response) made,
    (length replies <= length ns)%nat /\
    tool_calls (rounds ns msgs sys tools tool_manager st).1 =
      tool_calls st ++ made /\
    made `prefix_of`
      concat ((fun r => tool_requests (content r)) <$> replies) /\
    ((forall e, (rounds ns msgs sys tools tool_manager st).2 = Raised e ->
                is_exception e = true) ->
     made = concat ((fun r => tool_requests (content r)) <$> replies)) /\
    Forall (fun r => stop_reason r = "tool_use" /\
                     exists p w w', create p w = (w', Returned r)) replies /\
    (tool_manager = None -> replies = []).
Proof.
  induction ns as [|n later IH]; intros msgs st.
  - exists [], []. cbn [AIGenerator.rounds]. rewrite final_round_run.
    repeat split; [simpl; lia| |done..].
    rewrite app_nil_r.
    destruct (create _ (world st)).2 as [r|e]; [|done].
    by rewrite first_text_state.
  - rewrite rounds_cons.
    destruct (execute_round_calls msgs sys tools tool_manager n st)
      as [_ Ht].
    destruct (_execute_round msgs sys tools tool_manager n st)
      as [st1 [[text|response]|e]] eqn:Er; cbn [fst] in Ht.
    + exists [], []. repeat split; [simpl; lia| |done..].
      by rewrite app_nil_r.
    + destruct (execute_round_tool_use _ _ _ _ _ _ _ _ Er)
        as (Hs & Hm & w1 & Hc).
      destruct (execute_tools_run response tool_manager st1)
        as (_ & made1 & Hlog & Hpre & Hout).
      rewrite Hs, String.eqb_refl, Hm in Hpre, Hout.
      cbn [andb] in Hpre, Hout.
      assert (Forall (fun r => stop_reason r = "tool_use" /\
                        exists p w w', create p w = (w', Returned r))
                [response]) as Hone by (constructor; eauto 10).
      assert (tool_manager = None -> [response] = []) as Hnone
        by (intros ->; discriminate).
      destruct (_execute_tools response tool_manager st1)
        as [st2 [[[|x xs]|]|e]]; cbn [fst snd] in Hlog, Hout.
      * exists [response], made1. subst made1.
        repeat split; [simpl; lia|cbn [fst]; congruence|
                       cbn; by rewrite app_nil_r|
                       cbn; by rewrite app_nil_r|done..].
      * destruct (IH ((msgs ++
                         [assistant_message (CBlocks (content response))])
                        ++ [user_message (CResults (x :: xs))]) st2)
          as (replies & made & Hl & Hcalls & Hp & Hfull & Hall & Hn).
        exists (response :: replies), (made1 ++ made). subst made1.
        repeat split.
        -- simpl. lia.
        -- rewrite Hcalls, Hlog, Ht. by rewrite <- app_assoc.
        -- cbn. by apply prefix_app.
        -- intros Hc'. cbn. by rewrite (Hfull Hc').
        -- by constructor; [inversion Hone|].
        -- intros ->. discriminate.
      * exists [response], made1. subst made1.
        repeat split; [simpl; lia|cbn [fst]; congruence|
                       cbn; by rewrite app_nil_r|
                       cbn; by rewrite app_nil_r|done..].
      * exists [response], made1.
        repeat split; [simpl; lia|cbn [fst]; congruence|
                       cbn; by rewrite app_nil_r| |done..].
        intros Hc'. cbn [snd] in Hc'.
        specialize (Hc' e eq_refl). congruence.
    + exists [], []. repeat split; [simpl; lia| |done..].
      by rewrite app_nil_r.
Qed.

(** X3: The generator executes only what the model asked for: the tools
    logged by one invocation are the requests of at most two replies
    that the client returned with stop reason [tool_use], in the order
    of the replies and of their blocks; none without a tool manager.
    Whenever the invocation returns an answer the batches are complete;
    only an exception outside [Exception] that goes through to the
    caller can cut the last batch short. *)
Theorem only_requested_tools_are_executed q h tools
    (tool_manager : option ToolManager) st :
  exists (replies : list Response) made,
    (length replies <= 2)%nat /\
    tool_calls (generate_response q h tools tool_manager st).1 =
      tool_calls st ++ made /\
    made `prefix_of`
      concat ((fun r => tool_requests (content r)) <$> replies) /\
    ((exists answer,
        (generate_response q h tools tool_manager st).2 = Returned answer) ->
     made = concat ((fun r => tool_requests (content r)) <$> replies)) /\
    Forall (fun r => stop_reason r = "tool_use" /\
                     exists p w w', create p w = (w', Returned r)) replies /\
    (tool_manager = None -> replies = []).
Proof.
  destruct (rounds_tool_batches [1; 2] tool_manager (build_system_content h)
              tools [user_message (CText q)] st)
    as (replies & made & Hl & Hcalls & Hp & Hfull & Hall & Hn).
  exists replies, made. rewrite generate_response_unfold.
  destruct (rounds [1; 2] _ _ tools tool_manager st) as [st1 [a|e]];
    cbn [fst snd] in Hcalls, Hfull.
  - repeat split; try done. intros _. by apply Hfull.
  - destruct (is_exception e) eqn:He.
    + rewrite fallback_run. cbn [fst snd tool_calls].
      repeat split; try done. intros _. apply Hfull.
      by intros ? [= <-].
    + cbn [fst snd]. repeat split; try done. by intros [? [=]].
Qed.

(** ** Further properties of the requests *)

(** X4: When the first model call does not come back with a tool-use reply
    (it raises, or the reply has another stop reason), no tool is
    executed even though a tool manager is there: the answer is the
    reply's first text, or the fallback's, after one or two model
    calls; an exception outside [Exception] raised by a call goes
    through. *)
Theorem no_tool_use_reply_no_tool_execution q h tools
    (tool_manager : option ToolManager) st :
  let p1 := round_params [user_message (CText q)] (build_system_content h)
              tools 1 in
  (forall w1 r1, create p1 (world st) = (w1, Returned r1) ->
                 stop_reason r1 <> "tool_use") ->
  generate_response q h tools tool_manager st =
    try_except (bind (messages_create p1) first_text)
      (fun e => _fallback_response q h (Some (str_exc e))) st /\
  tool_calls (generate_response q h tools tool_manager st).1 =
    tool_calls st /\
  (api_calls (generate_response q h tools tool_manager st).1 =
     api_calls st ++ [p1] \/
   api_calls (generate_response q h tools tool_manager st).1 =
     api_calls st ++ [p1; fallback_params q h]).
Proof.
  intros p1 Hno.
  assert (generate_response q h tools tool_manager st =
          try_except (bind (messages_create p1) first_text)
            (fun e => _fallback_response q h (Some (str_exc e))) st) as E.
  { rewrite generate_response_unfold. unfold try_except, bind.
    rewrite messages_create_run.
    destruct (create p1 (world st)) as [w1 [r|e]] eqn:Hc; cbn [fst snd].
    - rewrite (text_round_step tool_manager _ _ _ _ _ _ _ _ Hc)
        by (left; by eapply Hno).
      reflexivity.
    - rewrite rounds_cons, execute_round_run. fold p1. rewrite Hc.
      reflexivity. }
  split; [exact E|]. rewrite E. unfold try_except, bind.
  rewrite messages_create_run.
  destruct (create p1 (world st)) as [w1 [r|e]]; cbn [fst snd].
  - match goal with |- context [first_text r ?s] =>
      pose proof (first_text_state r s) as Hs;
      destruct (first_text r s) as [st2 [t|e]] end;
      simpl in Hs; subst st2.
    + split; [done|by left].
    + destruct (is_exception e); [|split; [done|by left]].
      rewrite fallback_run. split; [done|right].
      cbn [fst api_calls]. by rewrite <- app_assoc.
  - destruct (is_exception e); [|split; [done|by left]].
    rewrite fallback_run. split; [done|right].
    cbn [fst api_calls]. by rewrite <- app_assoc.
Qed.

Lemma rounds_empty_tools ns (tool_manager : option ToolManager) sys :
  forall msgs st,
  rounds ns msgs sys (Some []) tool_manager st =
  rounds ns msgs sys None tool_manager st.
Proof.
  induction ns as [|n later IH]; intros msgs st; [reflexivity|].
  rewrite !rounds_cons.
  change (_execute_round msgs sys (Some []) tool_manager n st)
    with (_execute_round msgs sys None tool_manager n st).
  destruct (_execute_round msgs sys None tool_manager n st)
    as [st1 [[text|response]|e]]; try reflexivity.
  destruct (_execute_tools response tool_manager st1)
    as [st2 [[[|x xs]|]|e]]; try reflexivity.
  apply IH.
Qed.

(** X5: An empty tool list is treated as no tool list: the two invocations
    agree on every client and tool manager, request for request. *)
Theorem empty_tools_list_is_no_tools q h
    (tool_manager : option ToolManager) st :
  generate_response q h (Some []) tool_manager st =
  generate_response q h None tool_manager st.
Proof.
  rewrite !generate_response_unfold. by rewrite rounds_empty_tools.
Qed.

(** X6: An empty conversation history is treated as no history: the system
    text is the bare prompt in every request. *)
Theorem empty_history_is_no_history q tools
    (tool_manager : option ToolManager) st :
  generate_response q (Some "") tools tool_manager st =
    generate_response q None tools tool_manager st /\
  build_system_content (Some "") = SYSTEM_PROMPT /\
  build_system_content None = SYSTEM_PROMPT.
Proof. by repeat split. Qed.

Lemma round_params_fields (msgs : list (@Message ToolInput)) sys
    (tools : option (list ToolDef)) n :
  let p := round_params msgs sys tools n in
  p_model p = model_name /\ p_temperature p = 0 /\ p_max_tokens p = 800 /\
  p_system p = sys /\ p_messages p = msgs /\
  ((p_tools p = None /\ p_tool_choice p = None) \/
   (tools_truthy tools = true /\ p_tools p = tools /\
    p_tool_choice p = Some "auto")).
Proof.
  unfold AIGenerator.round_params.
  destruct (tools_truthy tools) eqn:Ht; cbn [andb];
    [destruct (n <=? 2)%Z|]; cbn; repeat split; auto.
Qed.

(** X7: Every request of an invocation carries the generator's base
    parameters (its model, temperature 0, at most 800 tokens) and the
    same system text; it offers either no tools at all or the caller's
    non-empty tool list with tool choice [auto]. *)
Theorem every_request_has_base_params q h tools
    (tool_manager : option ToolManager) st :
  exists new,
    api_calls (generate_response q h tools tool_manager st).1 =
      api_calls st ++ new /\
    Forall (fun p =>
              p_model p = model_name /\ p_temperature p = 0 /\
              p_max_tokens p = 800 /\
              p_system p = build_system_content h /\
              ((p_tools p = None /\ p_tool_choice p = None) \/
               (tools_truthy tools = true /\ p_tools p = tools /\
                p_tool_choice p = Some "auto"))) new.
Proof.
  rewrite generate_response_unfold.
  destruct (rounds_calls [1; 2] tool_manager (build_system_content h) tools
              [user_message (CText q)] st)
    as (rc & sc & Hn & _ & _ & Hrc & Hsc).
  assert (Forall (fun p =>
              p_model p = model_name /\ p_temperature p = 0 /\
              p_max_tokens p = 800 /\
              p_system p = build_system_content h /\
              ((p_tools p = None /\ p_tool_choice p = None) \/
               (tools_truthy tools = true /\ p_tools p = tools /\
                p_tool_choice p = Some "auto"))) (rc ++ sc)) as Hall.
  { apply Forall_app. split.
    - eapply Forall_impl; [exact Hrc|]. intros p (m & n & ->).
      destruct (round_params_fields m (build_system_content h) tools n)
        as (? & ? & ? & ? & _ & ?). done.
    - eapply Forall_impl; [exact Hsc|]. intros p (m & ->).
      cbn. repeat split; auto. }
  destruct (rounds [1; 2] _ _ tools tool_manager st) as [st1 [a|e]];
    cbn [fst] in Hn.
  - by exists (rc ++ sc).
  - destruct (is_exception e); [|by exists (rc ++ sc)].
    rewrite fallback_run. exists ((rc ++ sc) ++ [fallback_params q h]).
    cbn [fst api_calls]. split; [by rewrite Hn, <- !app_assoc|].
    apply Forall_app. split; [done|].
    constructor; [|done]. cbn. repeat split; auto.
Qed.

(** ** The message history *)

Lemma turns_next k : turns k ++ ["assistant"; "user"] = turns (S k).
Proof.
  unfold turns. cbn [app]. f_equal.
  induction k as [|k IH]; [reflexivity|].
  cbn [replicate concat]. rewrite <- !app_assoc, IH. reflexivity.
Qed.

Lemma next_messages_roles (msgs : list (@Message ToolInput))
    (r : Response) res k m0 :
  role <$> msgs = turns k -> head msgs = Some m0 ->
  role <$> next_messages msgs r res = turns (S k) /\
  head (next_messages msgs r res) = Some m0.
Proof.
  intros Hr Hh. unfold next_messages. split.
  - rewrite !fmap_app, Hr, <- app_assoc. apply turns_next.
  - destruct msgs; [discriminate|done].
Qed.

Lemma rounds_histories ns (tool_manager : option ToolManager) sys tools
    (m0 : @Message ToolInput) :
  forall (msgs : list (@Message ToolInput)) st k,
  role <$> msgs = turns k -> head msgs = Some m0 ->
  exists new,
    api_calls (rounds ns msgs sys tools tool_manager st).1 =
      api_calls st ++ new /\
    Forall (fun p => head (p_messages p) = Some m0 /\
                     exists j, (j <= k + length ns)%nat /\
                               role <$> p_messages p = turns j) new.
Proof.
  induction ns as [|n later IH]; intros msgs st k Hr Hh.
  - cbn [AIGenerator.rounds]. rewrite final_round_run.
    exists [plain_params msgs sys]. split.
    + destruct (create _ (world st)).2 as [r|e]; [|done].
      by rewrite first_text_state.
    + constructor; [|done]. split; [done|].
      exists k. split; [lia|done].
  - rewrite rounds_cons.
    destruct (execute_round_calls msgs sys tools tool_manager n st)
      as [Ha _].
    assert (Forall (fun p => head (p_messages p) = Some m0 /\
                       exists j, (j <= k + length (n :: later))%nat /\
                                 role <$> p_messages p = turns j)
              [round_params msgs sys tools n]) as Hone.
    { constructor; [|done].
      destruct (round_params_fields msgs sys tools n)
        as (_ & _ & _ & _ & -> & _).
      split; [done|]. exists k. split; [lia|done]. }
    destruct (_execute_round msgs sys tools tool_manager n st)
      as [st1 [[text|response]|e]]; cbn [fst] in Ha.
    + by exists [round_params msgs sys tools n].
    + destruct (execute_tools_total response tool_manager st1) as [Hc _].
      destruct (_execute_tools response tool_manager st1)
        as [st2 [[[|x xs]|]|e]]; cbn [fst] in Hc;
        [| |exists [round_params msgs sys tools n];
            split; [cbn [fst]; congruence|done]..].
      * exists [round_params msgs sys tools n].
        split; [cbn [fst]; congruence|done].
      * destruct (next_messages_roles msgs response (x :: xs) k m0 Hr Hh)
          as [Hr' Hh'].
        destruct (IH _ st2 (S k) Hr' Hh') as (new & Hn & Hall).
        exists (round_params msgs sys tools n :: new). split.
        -- unfold next_messages in Hn. rewrite Hn, Hc, Ha.
           by rewrite <- app_assoc.
        -- constructor; [by inversion Hone|].
           eapply Forall_impl; [exact Hall|].
           intros p (? & j & Hj & ?). split; [done|].
           exists j. split; [cbn [length]; lia|done].
    + by exists [round_params msgs sys tools n].
Qed.

(** X8: Every request of an invocation opens with the user's query and has
    alternating roles: the query alone, or the query followed by one or
    two pairs of an assistant turn and a user turn. *)
Theorem every_request_alternates_roles q h tools
    (tool_manager : option ToolManager) st :
  exists new,
    api_calls (generate_response q h tools tool_manager st).1 =
      api_calls st ++ new /\
    Forall (fun p =>
              head (p_messages p) = Some (user_message (CText q)) /\
              (role <$> p_messages p = ["user"] \/
               role <$> p_messages p = ["user"; "assistant"; "user"] \/
               role <$> p_messages p =
                 ["user"; "assistant"; "user"; "assistant"; "user"])) new.
Proof.
  rewrite generate_response_unfold.
  destruct (rounds_histories [1; 2] tool_manager (build_system_content h)
              tools (user_message (CText q)) [user_message (CText q)] st 0
              eq_refl eq_refl) as (new & Hn & Hall).
  assert (Forall (fun p =>
              head (p_messages p) = Some (user_message (CText q)) /\
              (role <$> p_messages p = ["user"] \/
               role <$> p_messages p = ["user"; "assistant"; "user"] \/
               role <$> p_messages p =
                 ["user"; "assistant"; "user"; "assistant"; "user"])) new)
    as Hall'.
  { eapply Forall_impl; [exact Hall|].
    intros p (Hh & j & Hj & Hr). split; [done|]. rewrite Hr.
    cbn [length] in Hj.
    destruct j as [|[|[|j]]]; [by left|by right; left|by right; right|lia]. }
  destruct (rounds [1; 2] _ _ tools tool_manager st) as [st1 [a|e]];
    cbn [fst] in Hn.
  - by exists new.
  - destruct (is_exception e); [|by exists new].
    rewrite fallback_run. exists (new ++ [fallback_params q h]).
    cbn [fst api_calls]. split; [by rewrite Hn, <- app_assoc|].
    apply Forall_app. split; [done|].
    constructor; [|done]. split; [done|by left].
Qed.

(** ** Where the answer comes from *)

Lemma first_text_returned (r : Response) st st' a :
  first_text r st = (st', Returned a) ->
  st' = st /\ first_block_is_text r a.
Proof.
  unfold first_text, first_block_is_text.
  destruct (content r) as [|[t|? ? ?|?] rest]; try discriminate.
  intros [= <- <-]. eauto.
Qed.

Lemma rounds_answer ns (tool_manager : option ToolManager) sys tools :
  forall msgs st st' a,
  rounds ns msgs sys tools tool_manager st = (st', Returned a) ->
  a = no_results_apology \/
  exists p w w' r,
    last (api_calls st') = Some p /\
    create p w = (w', Returned r) /\ first_block_is_text r a.
Proof.
  induction ns as [|n later IH]; intros msgs st st' a.
  - cbn [AIGenerator.rounds]. rewrite final_round_run.
    destruct (create _ (world st)) as [w1 [r|e]] eqn:Hc; cbn [fst snd];
      [|discriminate].
    intros Hf. apply first_text_returned in Hf as [-> Ht].
    right. eexists _, _, _, _. split; [|split; [exact Hc|exact Ht]].
    cbn [api_calls]. apply last_snoc.
  - rewrite rounds_cons, execute_round_run.
    destruct (create _ (world st)) as [w1 [r|e]] eqn:Hc; cbn [fst snd];
      [|discriminate].
    destruct (_ && _).
    + destruct (_execute_tools r tool_manager _)
        as [st2 [[[|x xs]|]|e]]; try discriminate.
      * intros [= _ <-]. by left.
      * apply IH.
      * intros [= _ <-]. by left.
    + destruct (first_text r _) as [st2 [t|e]] eqn:Hf; [|discriminate].
      intros [= <- <-]. apply first_text_returned in Hf as [-> Ht].
      right. eexists _, _, _, _. split; [|split; [exact Hc|exact Ht]].
      cbn [api_calls]. apply last_snoc.
Qed.

(** X9: The generator never makes up an answer: what it returns is one of
    its two fixed apologies, or the text of the first content block of
    the reply to the last request it made.  When it does not return, an
    exception outside [Exception] raised by a collaborator went
    through. *)
Theorem answer_is_reply_text_or_apology q h tools
    (tool_manager : option ToolManager) st :
  exists st' out,
    generate_response q h tools tool_manager st = (st', out) /\
    match out with
    | Returned a =>
        a = "I encountered an error while processing your request." \/
        a =
        "I encountered an error processing your request. Please try again."
        \/
        exists p w w' r,
          last (api_calls st') = Some p /\
          create p w = (w', Returned r) /\ first_block_is_text r a
    | Raised e => is_exception e = false
    end.
Proof.
  rewrite generate_response_unfold.
  destruct (rounds [1; 2] _ _ tools tool_manager st) as [st1 [a|e]] eqn:Hr.
  - exists st1, (Returned a). split; [done|].
    destruct (rounds_answer _ _ _ _ _ _ _ _ Hr) as [->|H]; [by left|].
    by right; right.
  - destruct (is_exception e) eqn:He; [|by exists st1, (Raised e)].
    rewrite fallback_run. eexists _, _. split; [reflexivity|].
    destruct (create (fallback_params q h) (world st1)) as [w2 [r|e2]] eqn:Hc;
      cbn [fst snd fallback_outcome fallback_answer].
    + destruct (content r) as [|[t|? ? ?|?] rest] eqn:Hcont;
        try (by right; left).
      right; right. eexists _, _, _, _. split; [|split; [exact Hc|]].
      * cbn [api_calls]. apply last_snoc.
      * by exists rest.
    + destruct (is_exception e2) eqn:He2; [by right; left|done].
Qed.

End Facts.

End AIGeneratorFacts.

(** ** The claims on scripted runs *)

Module AIGeneratorScenarios.

Import AIGenerator AIGeneratorFacts Mock.

Local Abbreviation tools := (Some ["search_course_content"]).
Local Abbreviation manager := (Some tool_manager).

Local Ltac tool_round_holds :=
  eexists; split; [reflexivity|]; split; reflexivity.


(** The three cases of the call-count contract. *)
Lemma call_count_contract_witness :
  generate "General knowledge query" None tools manager
    [Returned (text_reply "Direct answer without tools.")] [] =
  (mkState (mkWorld [] [])
     [round_params model [user_message (CText "General knowledge query")]
        prompt tools 1] [],
   Returned "Direct answer without tools.")
  /\
  (exists st',
     generate "Test query" None tools manager
       [Returned (tool_use_reply "tool_123" "search_course_content");
        Returned (text_reply "Final answer after tool use.")]
       [Returned "Tool result"] =
     (st', Returned "Final answer after tool use.") /\
     length (api_calls st') = 2%nat)
  /\
  (exists st',
     generate "Complex query" None tools manager
       (two_tool_replies ++
        [Returned (text_reply "Final synthesis after max rounds.")])
       [Returned "Result 1"; Returned "Result 2"] =
     (st', Returned "Final synthesis after max rounds.") /\
     length (api_calls st') = 3%nat).
Proof.
  unfold generate. split; [|split].
  - destruct (call_count_contract prompt model create
                "General knowledge query" None tools tool_manager
                (start [Returned (text_reply "Direct answer without tools.")]
                   [])) as [Ha _].
    eapply Ha; [reflexivity|]. split; [discriminate|by eexists].
  - destruct (call_count_contract prompt model create
                "Test query" None tools tool_manager
                (start [Returned (tool_use_reply "tool_123"
                                    "search_course_content");
                        Returned (text_reply "Final answer after tool use.")]
                   [Returned "Tool result"])) as (_ & Hb & _).
    edestruct Hb as [E Hcalls];
      [tool_round_holds
      | intros w2 r2 [= _ <-]; discriminate
      | vm_compute; reflexivity |].
    eexists. split; [exact E|]. by rewrite Hcalls.
  - destruct (call_count_contract prompt model create
                "Complex query" None tools tool_manager
                (start (two_tool_replies ++
                        [Returned (text_reply
                                     "Final synthesis after max rounds.")])
                   [Returned "Result 1"; Returned "Result 2"]))
      as (_ & _ & Hc).
    edestruct Hc as [E Hcalls];
      [tool_round_holds | tool_round_holds | vm_compute; reflexivity |].
    eexists. split; [exact E|]. by rewrite Hcalls.
Defined.

(** Both rounds reply with tool use and each yields a tool result, but
    the synthesis call fails: the fallback call is the fourth model
    call. *)
Lemma call_count_contract_counterexample :
  let st := start (two_tool_replies ++
                   [Raised (Raise "APIError" "Overloaded");
                    Returned (text_reply "Fallback response")])
              [Returned "Result 1"; Returned "Result 2"] in
  let m0 := [user_message (CText "Complex query")] in
  exists r1 res1 st1 r2 res2 st2,
    tool_round model create tool_manager m0 prompt tools 1 st r1 res1 st1 /\
    tool_round model create tool_manager (next_messages m0 r1 res1) prompt
      tools 2 st1 r2 res2 st2 /\
    length (api_calls
              (generate_response prompt model create "Complex query" None
                 tools manager st).1) = 4%nat /\
    length (api_calls
              (generate_response prompt model create "Complex query" None
                 tools manager st).1) <> 3%nat.
Proof.
  cbv zeta. do 6 eexists.
  split; [tool_round_holds|]. split; [tool_round_holds|].
  split; [reflexivity|discriminate].
Qed.






(** A tool-use reply without any [tool_use] block, in round 1 and in
    round 2. *)
Lemma zero_tool_results_witness :
  (generate "Test query" None tools manager
     [Returned empty_tool_use_reply;
      Returned (text_reply "never requested")] []).2 =
  Returned "I encountered an error while processing your request."
  /\
  (generate "Test query" None tools manager
     [Returned (tool_use_reply "tool_1" "search_course_content");
      Returned empty_tool_use_reply;
      Returned (text_reply "never requested")]
     [Returned "Result 1"]).2 =
  Returned "I encountered an error while processing your request.".
Proof.
  unfold generate. split.
  - destruct (zero_tool_results_end_with_apology prompt model create
                "Test query" None tools tool_manager
                (start [Returned empty_tool_use_reply;
                        Returned (text_reply "never requested")] []))
      as [H1 _].
    erewrite H1; reflexivity.
  - destruct (zero_tool_results_end_with_apology prompt model create
                "Test query" None tools tool_manager
                (start [Returned (tool_use_reply "tool_1"
                                    "search_course_content");
                        Returned empty_tool_use_reply;
                        Returned (text_reply "never requested")]
                   [Returned "Result 1"]))
      as [_ H2].
    erewrite H2; [reflexivity|tool_round_holds|reflexivity..].
Defined.

(** ** The test-suite's scenarios, by evaluation *)

(** [test_tool_execution_error_handling]: the error text reaches the
    second request and the model's answer is returned. *)
Example tool_error_reaches_the_model :
  let out := generate "Test query" None tools manager
               [Returned (tool_use_reply "tool_123" "search_course_content");
                Returned (text_reply "Handled error gracefully.")]
               [Raised (Raise "Exception" "Tool failed")] in
  out.2 = Returned "Handled error gracefully." /\
  (p_messages <$> api_calls out.1) !! 1%nat =
  Some [user_message (CText "Test query");
        assistant_message
          (CBlocks [ToolUseBlock "tool_123" "search_course_content"
                      [("query", "test")]]);
        user_message
          (CResults [mkToolResult "tool_result" "tool_123"
                       "Tool execution error: Tool failed"])].
Proof. split; reflexivity. Qed.

(** A failing call does not stop its sibling in the same round. *)
Example sibling_call_still_runs :
  _execute_tools
    (mkResponse "tool_use"
       [ToolUseBlock "tool1" "search_course_content" [("query", "first")];
        TextBlock "and";
        ToolUseBlock "tool2" "get_course_outline" [("course_name", "MCP")]])
    manager
    (start [] [Raised (Raise "Exception" "Tool failed");
               Returned "Outline result"]) =
  (mkState (mkWorld [] []) []
     [("search_course_content", [("query", "first")]);
      ("get_course_outline", [("course_name", "MCP")])],
   Returned (Some [mkToolResult "tool_result" "tool1"
                     "Tool execution error: Tool failed";
                   mkToolResult "tool_result" "tool2" "Outline result"])).
Proof. reflexivity. Qed.

(** The bound of four calls is reached: two tool rounds, a failing
    synthesis call and a failing fallback call. *)
Example four_calls_are_possible :
  let out := generate "Complex query" None tools manager
               two_tool_replies
               [Returned "Result 1"; Returned "Result 2"] in
  length (api_calls out.1) = 4%nat /\
  out.2 = Returned fallback_apology.
Proof. split; reflexivity. Qed.

(** Without a tool manager a tool-use reply is answered from its first
    block, or through the fallback when that block has no text. *)
Example tool_use_reply_without_manager :
  (generate "Test query" None tools None
     [Returned empty_tool_use_reply] [Returned "unused"]).2 =
    Returned "Let me look that up." /\
  generate "Test query" None tools None
    [Returned (tool_use_reply "tool_1" "search_course_content");
     Returned (text_reply "Fallback response")] [Returned "unused"] =
  (mkState (mkWorld [] [Returned "unused"])
     [round_params model [user_message (CText "Test query")] prompt tools 1;
      fallback_params prompt model "Test query" None] [],
   Returned "Fallback response").
Proof. split; reflexivity. Qed.

End AIGeneratorScenarios.

(** * Properties of the modelled components *)

Module VectorStoreFacts.

Import Models VectorStore.

(** C6: the filter is absent when neither argument is supplied, a single
    equality clause when exactly one is, and the [$and] of the two
    clauses when both are. *)
Theorem build_filter_shape (t : string) (n : Z) :
  _build_filter None None = None /\
  _build_filter (Some t) None = Some (Clause "course_title" (VStr t)) /\
  _build_filter None (Some n) = Some (Clause "lesson_number" (VInt n)) /\
  _build_filter (Some t) (Some n) =
    Some (And [Clause "course_title" (VStr t);
               Clause "lesson_number" (VInt n)]).
Proof. repeat split. Qed.

(** [test_build_filter_logic] *)
Example build_filter_test :
  _build_filter None None = None /\
  _build_filter (Some "Test Course") None =
    Some (Clause "course_title" (VStr "Test Course")) /\
  _build_filter None (Some 1) = Some (Clause "lesson_number" (VInt 1)) /\
  _build_filter (Some "Test Course") (Some 1) =
    Some (And [Clause "course_title" (VStr "Test Course");
               Clause "lesson_number" (VInt 1)]).
Proof. repeat split. Qed.

(** What the filter selects: the chunks that agree with every supplied
    argument. *)
Lemma build_filter_selects (t : option string) (n : option Z)
    (ch : CourseChunk) :
  passes (_build_filter t n) ch = true <->
  (forall t', t = Some t' -> course_title ch = t') /\
  (forall n', n = Some n' -> chunk_lesson_number ch = Some n').
Proof.
  destruct t as [t|], n as [n|]; cbn -[String.eqb].
  - rewrite andb_true_r, andb_true_iff, !bool_decide_eq_true.
    unfold chunk_metadata; cbn. split.
    + intros [[= ->] H2]. split; [by intros ? [= <-]|intros ? [= <-]].
      by destruct (chunk_lesson_number ch) as [m|]; inversion H2.
    + intros [H1 H2]. rewrite (H1 _ eq_refl), (H2 _ eq_refl). done.
  - rewrite bool_decide_eq_true. unfold chunk_metadata; cbn. split.
    + intros [= ->]. split; [by intros ? [= <-]|done].
    + intros [H1 _]. by rewrite (H1 _ eq_refl).
  - rewrite bool_decide_eq_true. unfold chunk_metadata; cbn. split.
    + intros H2. split; [done|intros ? [= <-]].
      by destruct (chunk_lesson_number ch) as [m|]; inversion H2.
    + intros [_ H2]. by rewrite (H2 _ eq_refl).
  - split; [intros _; split; intros ? [=]|done].
Qed.

End VectorStoreFacts.

Module DocumentProcessorFacts.

Import DocumentProcessor.

Lemma collapse_single_spaced text : forall b,
  single_spaced b (collapse b text) = true.
Proof.
  induction text as [|c rest IH]; intros b; [reflexivity|].
  cbn [collapse]. destruct (is_whitespace c) eqn:Hc.
  - destruct b; [apply IH|].
    cbn [single_spaced].
    change (is_whitespace space) with true. cbn. apply IH.
  - cbn [single_spaced]. rewrite Hc. apply IH.
Qed.

Lemma collapse_words text : forall b current,
  (b = true -> current = EmptyString) ->
  words_from current (collapse b text) = words_from current text.
Proof.
  induction text as [|c rest IH]; intros b current Hb; [reflexivity|].
  cbn [collapse words_from]. destruct (is_whitespace c) eqn:Hc.
  - destruct b.
    + rewrite (Hb eq_refl). by apply IH.
    + cbn [words_from]. change (is_whitespace space) with true. cbn match.
      destruct current; by rewrite IH.
  - cbn [words_from]. rewrite Hc. by apply IH.
Qed.

(** C8: a text whose normalised form is no longer than [chunk_size]
    yields exactly one chunk, the normalised text: the same words, each
    whitespace run replaced by one space. *)
Theorem short_text_is_one_chunk sentence_chunks text chunk_size overlap :
  (Z.of_nat (String.length (normalize_whitespace text)) <= chunk_size)%Z ->
  chunk_text sentence_chunks text chunk_size overlap =
    [normalize_whitespace text] /\
  single_spaced false (normalize_whitespace text) = true /\
  words (normalize_whitespace text) = words text.
Proof.
  intros Hlen. unfold chunk_text.
  apply Z.leb_le in Hlen. rewrite Hlen.
  split; [reflexivity|]. split.
  - apply collapse_single_spaced.
  - by apply collapse_words.
Qed.

(** [test_chunk_text_with_short_text] and the text of
    [test_chunk_text_whitespace_normalization]. *)
Lemma short_text_is_one_chunk_witness :
  chunk_text (fun _ _ _ => []) "Short text." 100 20 = ["Short text."] /\
  chunk_text (fun _ _ _ => [])
    ("Text   with    multiple   spaces" +:+ String (Ascii.ascii_of_nat 10)
       (String (Ascii.ascii_of_nat 10)
          ("and" +:+ String (Ascii.ascii_of_nat 9) "lines."))) 100 20 =
    ["Text with multiple spaces and lines."].
Proof.
  split.
  - apply (short_text_is_one_chunk (fun _ _ _ => []) "Short text." 100 20).
    vm_compute. discriminate.
  - refine (proj1 (short_text_is_one_chunk (fun _ _ _ => []) _ 100 20 _)).
    vm_compute. discriminate.
Defined.

End DocumentProcessorFacts.

Module RAGSystemFacts.

Import Models VectorStore RAGSystem.

#[local] Set Warnings "-clear-no-such-hyp".

Section IngestionFacts.

Variable Doc : Type.
Variable process_course_document : Doc -> option (Course * list CourseChunk).

Local Abbreviation ingest := (ingest Doc process_course_document).
Local Abbreviation add_course_folder :=
  (add_course_folder Doc process_course_document).
Local Abbreviation folder_titles :=
  (folder_titles Doc process_course_document).
Local Abbreviation new_documents :=
  (new_documents Doc process_course_document).

Implicit Types (files : list Doc) (s : Store).

(** Ingestion leaves in the catalog what was there plus the titles of the
    folder. *)
Lemma ingest_titles files : forall s,
  get_existing_course_titles (ingest files s).1 =
  get_existing_course_titles s ∪ list_to_set (folder_titles files).
Proof.
  induction files as [|f rest IH]; intros s; cbn [RAGSystem.ingest
    RAGSystem.folder_titles].
  - cbn. set_solver.
  - destruct (process_course_document f) as [[course chunks]|]; [|apply IH].
    cbn [list_to_set]. case_decide as Hin.
    + rewrite IH. set_solver.
    + specialize (IH (add_course_content (add_course_metadata s course)
                        chunks)).
      destruct (ingest rest _) as [s' [courses total]]. cbn [fst] in *.
      rewrite IH. unfold get_existing_course_titles. cbn.
      rewrite dom_insert_L. set_solver.
Qed.

(** Every counted course is a new catalog entry. *)
Lemma ingest_count files : forall s,
  get_course_count (ingest files s).1 =
  (get_course_count s + (ingest files s).2.1)%nat.
Proof.
  induction files as [|f rest IH]; intros s; cbn [RAGSystem.ingest].
  - cbn. lia.
  - destruct (process_course_document f) as [[course chunks]|]; [|apply IH].
    case_decide as Hin; [apply IH|].
    specialize (IH (add_course_content (add_course_metadata s course)
                      chunks)).
    destruct (ingest rest _) as [s' [courses total]]. cbn [fst snd] in *.
    rewrite IH. unfold get_course_count. cbn.
    rewrite map_size_insert_None; [lia|].
    by apply not_elem_of_dom.
Qed.

(** When every title of the folder is in the catalog, nothing happens. *)
Lemma ingest_all_known files : forall s,
  (forall t, t ∈ folder_titles files -> t ∈ get_existing_course_titles s) ->
  ingest files s = (s, (0%nat, 0%nat)).
Proof.
  induction files as [|f rest IH]; intros s Hk; [reflexivity|].
  cbn [RAGSystem.ingest RAGSystem.folder_titles] in *.
  destruct (process_course_document f) as [[course chunks]|].
  - rewrite decide_True by (apply Hk; left).
    apply IH. intros t Ht. apply Hk. by right.
  - by apply IH.
Qed.

(** The content collection after upserting a list of chunks. *)
Lemma add_course_content_dom chunks : forall s,
  dom (course_content (add_course_content s chunks)) =
  dom (course_content s) ∪ list_to_set (chunk_key <$> chunks).
Proof.
  unfold add_course_content. cbn [course_content].
  induction chunks as [|ch rest IH]; intros s; cbn [foldl fmap list_fmap].
  - cbn. set_solver.
  - specialize (IH (mkStore (course_catalog s)
                      (<[(course_title ch, chunk_index ch) := ch]>
                         (course_content s)))).
    cbn [course_content] in IH. rewrite IH, dom_insert_L.
    cbn [list_to_set]. unfold chunk_key. set_solver.
Qed.

(** Over a list of documents, the content collection receives their
    chunks one after the other. *)
Lemma store_documents_content docs : forall s,
  course_content (foldl store_document s docs) =
  course_content (add_course_content s (written_chunks docs)).
Proof.
  induction docs as [|d rest IH]; intros s; [reflexivity|].
  cbn [foldl]. rewrite IH. unfold written_chunks. cbn [fmap list_fmap concat].
  unfold store_document, add_course_content, add_course_metadata.
  cbn [course_content course_catalog]. by rewrite foldl_app.
Qed.

(** Ingestion writes exactly the new documents and counts them and
    their chunks. *)
Lemma ingest_run files : forall s,
  let docs := new_documents files (get_existing_course_titles s) in
  ingest files s =
  (foldl store_document s docs,
   (length docs, length (written_chunks docs))).
Proof.
  induction files as [|f rest IH]; intros s; [reflexivity|].
  cbn [RAGSystem.ingest RAGSystem.new_documents].
  destruct (process_course_document f) as [[course chunks]|]; [|apply IH].
  case_decide as Hin; [apply IH|].
  rewrite IH. cbv zeta.
  replace (get_existing_course_titles
             (add_course_content (add_course_metadata s course) chunks))
    with ({[title course]} ∪ get_existing_course_titles s)
    by (unfold get_existing_course_titles; cbn; by rewrite dom_insert_L).
  cbn [foldl length]. unfold written_chunks.
  cbn [fmap list_fmap concat snd]. by rewrite length_app.
Qed.

(** The new documents carry pairwise distinct titles, none of them
    known before, and together with the known titles they cover the
    folder. *)
Lemma new_documents_titles files : forall known,
  NoDup (written_titles (new_documents files known)) /\
  (forall t, t ∈ written_titles (new_documents files known) ->
             t ∈ folder_titles files /\ t ∉ known) /\
  (forall t, t ∈ folder_titles files ->
             t ∈ known \/ t ∈ written_titles (new_documents files known)).
Proof.
  induction files as [|f rest IH]; intros known;
    cbn [RAGSystem.new_documents RAGSystem.folder_titles].
  - split; [constructor|]. split; intros t Ht; by apply elem_of_nil in Ht.
  - destruct (process_course_document f) as [[course chunks]|]; [|apply IH].
    case_decide as Hin.
    + destruct (IH known) as (Hnd & Hnew & Hcov).
      split; [done|]. split.
      * intros t Ht. destruct (Hnew t Ht). split; [by right|done].
      * intros t [->|Ht]%elem_of_cons; [by left|by apply Hcov].
    + destruct (IH ({[title course]} ∪ known)) as (Hnd & Hnew & Hcov).
      unfold written_titles in *. cbn [fmap list_fmap fst].
      split; [|split].
      * constructor; [|done]. intros Ht. apply Hnew in Ht. set_solver.
      * intros t [->|Ht]%elem_of_cons; [split; [by left|done]|].
        destruct (Hnew t Ht). split; [by right|set_solver].
      * intros t [->|Ht]%elem_of_cons; [right; by left|].
        destruct (Hcov t Ht) as [Hk|Hk]; [|right; by right].
        apply elem_of_union in Hk as [->%elem_of_singleton|Hk];
          [right; by left|by left].
Qed.

(** C7: after a first call without [clear_existing] a second call on the
    same folder adds 0 courses and 0 chunks and leaves the store as it
    is, each course of the folder being in the catalog once; with
    [clear_existing] the call is the ingestion of the folder into an
    emptied store, which ends with exactly the folder's titles.  A call
    writes the documents whose title is new, each title once, to both
    collections: it returns their number and the number of their chunks,
    and every one of their chunks is in the content collection
    afterwards.  With [clear_existing] these are the documents of all
    the folder's titles and the content collection holds their chunks
    and nothing else. *)
Theorem folder_ingestion_idempotent files s :
  let first := add_course_folder files false s in
  let cleared := add_course_folder files true s in
  let added := new_documents files (get_existing_course_titles s) in
  let all := new_documents files ∅ in
  add_course_folder files false first.1 = (first.1, (0%nat, 0%nat)) /\
  get_course_count first.1 = (get_course_count s + first.2.1)%nat /\
  (forall t, t ∈ folder_titles files ->
             t ∈ get_existing_course_titles first.1) /\
  cleared = add_course_folder files false (mkStore ∅ ∅) /\
  get_existing_course_titles cleared.1 = list_to_set (folder_titles files) /\
  cleared.2.1 = size (get_existing_course_titles cleared.1) /\
  first =
    (foldl store_document s added,
     (length added, length (written_chunks added))) /\
  NoDup (written_titles added) /\
  (forall t, t ∈ folder_titles files ->
             t ∈ get_existing_course_titles s \/ t ∈ written_titles added) /\
  course_content first.1 =
    course_content (add_course_content s (written_chunks added)) /\
  (forall ch, ch ∈ written_chunks added ->
              is_Some (course_content first.1 !! chunk_key ch)) /\
  cleared =
    (foldl store_document (mkStore ∅ ∅) all,
     (length all, length (written_chunks all))) /\
  NoDup (written_titles all) /\
  (forall t, t ∈ folder_titles files <-> t ∈ written_titles all) /\
  dom (course_content cleared.1) =
    list_to_set (chunk_key <$> written_chunks all) /\
  (forall d, d ∈ all -> d.2 <> [] -> (0 < cleared.2.2)%nat).
Proof.
  intros first cleared added all. subst first cleared.
  unfold RAGSystem.add_course_folder, clear_all_data.
  assert (forall t, t ∈ folder_titles files ->
                    t ∈ get_existing_course_titles (ingest files s).1) as Hk.
  { intros t Ht. rewrite ingest_titles. set_solver. }
  pose proof (ingest_run files s) as Hrun. cbv zeta in Hrun. fold added in Hrun.
  pose proof (ingest_run files (mkStore ∅ ∅)) as Hall. cbv zeta in Hall.
  replace (get_existing_course_titles (mkStore ∅ ∅)) with (∅ : gset string)
    in Hall by (unfold get_existing_course_titles; cbn; by rewrite dom_empty_L).
  fold all in Hall.
  destruct (new_documents_titles files (get_existing_course_titles s))
    as (Hnd & _ & Hcov). fold added in Hnd, Hcov.
  destruct (new_documents_titles files ∅) as (Hnd0 & Hnew0 & Hcov0).
  fold all in Hnd0, Hnew0, Hcov0.
  assert (course_content (ingest files s).1 =
          course_content (add_course_content s (written_chunks added)))
    as Hcontent by (by rewrite Hrun, <- store_documents_content).
  split; [by apply ingest_all_known|].
  split; [apply ingest_count|].
  split; [exact Hk|].
  split; [reflexivity|].
  split.
  { rewrite ingest_titles. unfold get_existing_course_titles. cbn.
    rewrite dom_empty_L. set_solver. }
  split.
  { pose proof (ingest_count files (mkStore ∅ ∅)) as Hc.
    unfold get_course_count in Hc. cbn [course_catalog] in Hc.
    rewrite map_size_empty in Hc. cbn in Hc.
    unfold get_existing_course_titles. by rewrite size_dom. }
  split; [exact Hrun|].
  split; [exact Hnd|].
  split; [exact Hcov|].
  split; [exact Hcontent|].
  split.
  { intros ch Hch. apply elem_of_dom.
    rewrite Hcontent, add_course_content_dom.
    apply elem_of_union_r, elem_of_list_to_set.
    by apply list_elem_of_fmap_2. }
  split; [exact Hall|].
  split; [exact Hnd0|].
  split.
  { intros t. split.
    - intros Ht. destruct (Hcov0 t Ht) as [Hin|Hin]; [set_solver|done].
    - intros Ht. by destruct (Hnew0 t Ht). }
  split.
  { rewrite Hall. cbn [fst].
    rewrite store_documents_content, add_course_content_dom.
    cbn [course_content]. rewrite dom_empty_L. set_solver. }
  intros d Hd Hne. rewrite Hall. cbn [snd].
  apply list_elem_of_split in Hd as (l1 & l2 & ->).
  unfold written_chunks. rewrite fmap_app, concat_app, length_app.
  cbn [fmap list_fmap concat]. rewrite length_app.
  destruct d.2; [done|]. cbn [length]. lia.
Qed.

End IngestionFacts.

(** [test_add_course_folder_with_existing_courses] and
    [test_clear_existing_data] on a one-file folder whose document parses
    to one course with one chunk. *)
Example one_course_folder :
  let course := mkCourse "Existing Course"
                  (Some "https://example.com/existing")
                  (Some "Existing Instructor")
                  [mkLesson 0 "Existing Lesson" None] in
  let chunks := [mkCourseChunk "Existing Course" (Some 0)
                   "This is existing content." 0] in
  let parse := fun _ : string => Some (course, chunks) in
  let first := add_course_folder string parse ["existing.txt"] false
                 (mkStore ∅ ∅) in
  first.2 = (1%nat, 1%nat) /\
  (add_course_folder string parse ["existing.txt"] false first.1).2 =
    (0%nat, 0%nat) /\
  (add_course_folder string parse ["existing.txt"] true first.1).2 =
    (1%nat, 1%nat) /\
  course_content
    (add_course_folder string parse ["existing.txt"] true first.1).1
    !! ("Existing Course", 0%nat) =
  Some (mkCourseChunk "Existing Course" (Some 0) "This is existing content."
          0).
Proof.
  cbv zeta. unfold add_course_folder, clear_all_data. cbn [ingest].
  rewrite decide_False by set_solver. cbn [fst snd].
  split; [reflexivity|]. split; [|split; [reflexivity|]].
  - rewrite decide_True; [reflexivity|].
    unfold get_existing_course_titles. cbn. set_solver.
  - cbn. apply lookup_insert_eq.
Qed.

End RAGSystemFacts.

(** * Properties of the test application *)

Module TestAppFacts.

Import TestApp.

Section AppFacts.

Context {W : Type}.
Implicit Types (rag : @RagSystem W) (st : @AppState W).

(** X10: On success the query is the last call made, it ran under the very
    session id that the response carries, and that id is the caller's
    whenever the caller sent a non-empty one, in which case no session is
    created; otherwise exactly one session is created first. *)
Theorem query_runs_under_returned_session rag request st st' body :
  query_documents rag request st = (st', Ok body) ->
  exists before,
    events st' =
      events st ++ before ++
        [Query (request_query request) (session_id body)] /\
    match request_session_id request with
    | Some s =>
        if String.eqb s "" then before = [CreateSession]
        else before = [] /\ session_id body = s
    | None => before = [CreateSession]
    end.
Proof.
  unfold query_documents, call_create_session, call_query, to_http_error.
  destruct (request_session_id request) as [s|]; cbn [session_truthy].
  - destruct (String.eqb s "") eqn:Hs; cbn [negb from_option id].
    + destruct (create_session rag (app_world st)) as [w1 [sid|e]];
        [|by destruct (is_exception e)].
      cbn [app_world events].
      destruct (query rag (request_query request) sid w1)
        as [w2 [[[a ss] ls]|e]]; [|by destruct (is_exception e)].
      intros [= <- <-]. exists [CreateSession]. cbn.
      by rewrite <- app_assoc.
    + destruct (query rag (request_query request) s (app_world st))
        as [w2 [[[a ss] ls]|e]]; [|by destruct (is_exception e)].
      intros [= <- <-]. by exists [].
  - destruct (create_session rag (app_world st)) as [w1 [sid|e]];
      [|by destruct (is_exception e)].
    cbn [app_world events].
    destruct (query rag (request_query request) sid w1)
      as [w2 [[[a ss] ls]|e]]; [|by destruct (is_exception e)].
    intros [= <- <-]. exists [CreateSession]. cbn.
    by rewrite <- app_assoc.
Qed.

(** X11: An [HTTPException] of the handler is always status 500, with the
    message of the exception that a collaborator raised as detail:
    either [create_session] failed, and then the query was never run, or
    the query itself failed. *)
Theorem query_failure_is_500_with_message rag request st st' code detail :
  query_documents rag request st = (st', HttpException code detail) ->
  code = 500 /\
  exists e,
    detail = str_exc e /\
    ((exists w',
        session_truthy (request_session_id request) = false /\
        create_session rag (app_world st) = (w', Raised e) /\
        events st' = events st ++ [CreateSession]) \/
     (exists session w w',
        query rag (request_query request) session w = (w', Raised e) /\
        last (events st') = Some (Query (request_query request) session))).
Proof.
  unfold query_documents, call_create_session, call_query, to_http_error.
  destruct (session_truthy (request_session_id request)) eqn:Ht.
  - destruct (query rag (request_query request) _ (app_world st))
      as [w2 [[[a ss] ls]|e]] eqn:Hq; [discriminate|].
    destruct (is_exception e); [|discriminate].
    intros [= <- <- <-]. split; [done|]. exists e. split; [done|].
    right. eexists _, _, _. split; [exact Hq|].
    cbn [events]. apply last_snoc.
  - destruct (create_session rag (app_world st)) as [w1 [sid|e]] eqn:Hc.
    + cbn [app_world events].
      destruct (query rag (request_query request) sid w1)
        as [w2 [[[a ss] ls]|e]] eqn:Hq; [discriminate|].
      destruct (is_exception e); [|discriminate].
      intros [= <- <- <-]. split; [done|]. exists e. split; [done|].
      right. eexists _, _, _. split; [exact Hq|].
      cbn [events]. apply last_snoc.
    + destruct (is_exception e); [|discriminate].
      intros [= <- <- <-]. split; [done|]. exists e. split; [done|].
      left. by exists w1.
Qed.

End AppFacts.

(** [test_successful_query_existing_session] *)
Lemma query_runs_under_returned_session_witness :
  exists st' body,
    query_documents MockRag.rag
      (mkQueryRequest "Tell me more about that topic"
         (Some "existing-session-123")) MockRag.start = (st', Ok body) /\
    session_id body = "existing-session-123" /\
    events st' =
      [Query "Tell me more about that topic" "existing-session-123"].
Proof.
  eexists _, _. split; [reflexivity|].
  destruct (query_runs_under_returned_session MockRag.rag
              (mkQueryRequest "Tell me more about that topic"
                 (Some "existing-session-123")) MockRag.start _ _ eq_refl)
    as (before & Hev & Hb).
  cbn in Hb. destruct Hb as [-> Hs]. by split.
Defined.

(** [test_query_endpoint_error_handling] *)
Lemma query_failure_is_500_with_message_witness :
  exists st',
    query_documents MockRag.failing_rag
      (mkQueryRequest "What is machine learning?" None) MockRag.start =
    (st', HttpException 500 "Internal error").
Proof.
  eexists.
  destruct (query_failure_is_500_with_message MockRag.failing_rag
              (mkQueryRequest "What is machine learning?" None)
              MockRag.start _ _ _ eq_refl) as [_ _].
  reflexivity.
Defined.

End TestAppFacts.

(** * Properties of the sample chunks *)

Module FixturesFacts.

Import Models DocumentProcessor Fixtures.

(** ** Splitting and joining words *)

Lemma append_cons c (s t : string) :
  String c s +:+ t = String c (s +:+ t).
Proof. reflexivity. Qed.

Lemma append_empty_r (s : string) : s +:+ EmptyString = s.
Proof.
  induction s as [|c s IH]; [reflexivity|].
  by rewrite append_cons, IH.
Qed.

Lemma append_assoc (s1 s2 s3 : string) :
  (s1 +:+ s2) +:+ s3 = s1 +:+ (s2 +:+ s3).
Proof.
  induction s1 as [|c s1 IH]; [reflexivity|].
  by rewrite !append_cons, IH.
Qed.

Lemma no_whitespace_snoc (s : string) c :
  no_whitespace s = true -> is_whitespace c = false ->
  no_whitespace (s +:+ String c EmptyString) = true.
Proof.
  induction s as [|a s IH]; intros Hs Hc.
  - change (no_whitespace (String c EmptyString) = true).
    cbn [no_whitespace]. by rewrite Hc.
  - rewrite append_cons. cbn [no_whitespace] in *.
    apply andb_true_iff in Hs as [Ha Hs]. rewrite Ha. by apply IH.
Qed.

(** What [str.split()] returns are words. *)
Lemma words_from_are_words text : forall current,
  no_whitespace current = true ->
  Forall is_word (words_from current text).
Proof.
  induction text as [|c rest IH]; intros current Hcur; cbn [words_from].
  - destruct current; [constructor|].
    constructor; [by split|constructor].
  - destruct (is_whitespace c) eqn:Hc.
    + destruct current; [by apply IH|].
      constructor; [by split|by apply IH].
    + apply IH. by apply no_whitespace_snoc.
Qed.

Lemma words_are_words text : Forall is_word (words text).
Proof. by apply words_from_are_words. Qed.

(** Reading a word moves it into the word being accumulated. *)
Lemma words_from_word w : forall current rest,
  no_whitespace w = true ->
  words_from current (w +:+ rest) = words_from (current +:+ w) rest.
Proof.
  induction w as [|c w IH]; intros current rest Hw.
  - by rewrite append_empty_r.
  - cbn [no_whitespace] in Hw. apply andb_true_iff in Hw as [Hc Hw].
    apply negb_true_iff in Hc.
    rewrite append_cons. cbn [words_from]. rewrite Hc.
    rewrite IH by done. by rewrite append_assoc.
Qed.

(** Splitting undoes joining. *)
Lemma words_join ws :
  Forall is_word ws -> words (join_words ws) = ws.
Proof.
  unfold words. induction 1 as [|w rest [Hne Hw] Hrest IH]; [reflexivity|].
  destruct rest as [|w2 rest].
  - cbn [join_words]. rewrite <- (append_empty_r w) at 1.
    rewrite words_from_word by done.
    change (EmptyString +:+ w) with w. cbn. by destruct w.
  - change (join_words (w :: w2 :: rest))
      with (w +:+ String space (join_words (w2 :: rest))).
    rewrite words_from_word by done. cbn [words_from].
    change (is_whitespace space) with true. cbn match.
    change (EmptyString +:+ w) with w.
    rewrite IH. by destruct w.
Qed.

(** ** The groups of words *)

Lemma range_step_below n i :
  i ∈ range_step n 5 -> (i < n)%nat.
Proof.
  unfold range_step. intros (k & -> & Hk)%list_elem_of_fmap.
  apply elem_of_seq in Hk.
  pose proof (Nat.div_mod_eq (n + 5 - 1) 5).
  pose proof (Nat.mod_upper_bound (n + 5 - 1) 5). lia.
Qed.

Lemma groups_concat (ws : list string) : forall m,
  (length ws <= 5 * m)%nat ->
  concat ((fun i => take 5 (drop i ws)) <$>
            ((fun k => k * 5)%nat <$> seq 0 m)) = ws.
Proof.
  intros m. revert ws. induction m as [|m IH]; intros ws Hl.
  - destruct ws; [reflexivity|simpl in Hl; lia].
  - cbn [seq]. rewrite !fmap_cons. cbn [concat].
    transitivity (take 5 ws ++ drop 5 ws); [|apply take_drop].
    f_equal.
    rewrite <- fmap_S_seq, <- !list_fmap_compose.
    etrans; [|apply (IH (drop 5 ws)); rewrite length_drop; lia].
    rewrite <- list_fmap_compose. f_equal.
    apply list_fmap_ext. intros k x Hx. cbn.
    by rewrite drop_drop.
Qed.

Lemma range_step_groups (ws : list string) :
  concat ((fun i => take 5 (drop i ws)) <$> range_step (length ws) 5) = ws.
Proof.
  unfold range_step. apply groups_concat.
  pose proof (Nat.div_mod_eq (length ws + 5 - 1) 5).
  pose proof (Nat.mod_upper_bound (length ws + 5 - 1) 5). lia.
Qed.

(** ** The loops *)

(** The inner loop appends, for every start index, one chunk of the
    course and lesson whose index is its position and whose words are
    the group starting there. *)
Lemma append_chunks_spec ct number (ws : list string) starts :
  Forall is_word ws ->
  Forall (fun i => (i < length ws)%nat) starts ->
  forall chunks,
  exists new,
    foldl (fun chunks i =>
             chunks ++ [mkCourseChunk ct (Some number)
                          (join_words (take 5 (drop i ws)))
                          (length chunks)])
      chunks starts = chunks ++ new /\
    chunk_index <$> new = seq (length chunks) (length new) /\
    (fun ch => words (chunk_content ch)) <$> new =
      (fun i => take 5 (drop i ws)) <$> starts /\
    Forall (fun ch =>
              course_title ch = ct /\
              chunk_lesson_number ch = Some number /\
              (1 <= length (words (chunk_content ch)) <= 5)%nat) new.
Proof.
  intros Hws. induction 1 as [|i starts Hi Hstarts IH]; intros chunks.
  - exists []. by rewrite app_nil_r.
  - cbn [foldl].
    destruct (IH (chunks ++ [mkCourseChunk ct (Some number)
                               (join_words (take 5 (drop i ws)))
                               (length chunks)]))
      as (new & E & Hidx & Hwords & Hall).
    assert (words (join_words (take 5 (drop i ws))) = take 5 (drop i ws))
      as Hrt by (apply words_join; by apply Forall_take, Forall_drop).
    eexists (_ :: new). split; [by rewrite E, <- app_assoc|].
    split; [|split].
    + rewrite fmap_cons. cbn [chunk_index length seq]. f_equal.
      rewrite Hidx, length_app. cbn [length]. by rewrite Nat.add_1_r.
    + rewrite !fmap_cons. cbn [chunk_content]. by rewrite Hrt, Hwords.
    + constructor; [|done].
      cbn [course_title chunk_lesson_number chunk_content]. rewrite Hrt.
      rewrite length_take, length_drop. repeat split; lia.
Qed.

Lemma append_lesson_chunks_spec ct number (ws : list string) chunks :
  Forall is_word ws ->
  exists new,
    append_lesson_chunks 5 ct number ws chunks = chunks ++ new /\
    chunk_index <$> new = seq (length chunks) (length new) /\
    concat ((fun ch => words (chunk_content ch)) <$> new) = ws /\
    Forall (fun ch =>
              course_title ch = ct /\
              chunk_lesson_number ch = Some number /\
              (1 <= length (words (chunk_content ch)) <= 5)%nat) new.
Proof.
  intros Hws.
  destruct (append_chunks_spec ct number ws (range_step (length ws) 5) Hws)
    with (chunks := chunks) as (new & E & Hidx & Hwords & Hall).
  { apply Forall_forall. intros i. apply range_step_below. }
  exists new. repeat split; try done.
  rewrite Hwords. apply range_step_groups.
Qed.

(** The outer loop, over any list of lessons. *)
Lemma lessons_fold_spec ct (lc : gmap Z string) ls : forall chunks,
  exists new,
    foldl (fun chunks lesson =>
             append_lesson_chunks 5 ct (lesson_number lesson)
               (words (lesson_content lc (lesson_number lesson))) chunks)
      chunks ls = chunks ++ new /\
    chunk_index <$> new = seq (length chunks) (length new) /\
    concat ((fun ch => words (chunk_content ch)) <$> new) =
      concat ((fun l => words (lesson_content lc (lesson_number l))) <$> ls)
    /\
    Forall (fun ch =>
              course_title ch = ct /\
              (exists l, l ∈ ls /\
                         chunk_lesson_number ch = Some (lesson_number l)) /\
              (1 <= length (words (chunk_content ch)) <= 5)%nat) new.
Proof.
  induction ls as [|l ls IH]; intros chunks.
  - exists []. by rewrite app_nil_r.
  - cbn [foldl].
    destruct (append_lesson_chunks_spec ct (lesson_number l)
                (words (lesson_content lc (lesson_number l))) chunks
                (words_are_words _)) as (new1 & E1 & Hi1 & Hw1 & Ha1).
    rewrite E1. destruct (IH (chunks ++ new1)) as (new2 & E2 & Hi2 & Hw2 & Ha2).
    exists (new1 ++ new2). split; [by rewrite E2, <- app_assoc|].
    split; [|split].
    + rewrite fmap_app, Hi1, Hi2, !length_app. by rewrite seq_app.
    + cbn [fmap list_fmap concat]. by rewrite fmap_app, concat_app, Hw1, Hw2.
    + apply Forall_app. split.
      * eapply Forall_impl; [exact Ha1|]. intros ch (? & ? & ?).
        split; [done|]. split; [|done].
        exists l. split; [left|done].
      * eapply Forall_impl; [exact Ha2|].
        intros ch (? & (l' & ? & ?) & ?).
        split; [done|]. split; [|done].
        exists l'. split; [by right|done].
Qed.

(** X12: The chunk indices of the fixture are the positions [0 .. n-1], in
    order, across all lessons. *)
Theorem sample_chunk_indices_are_sequential course lc :
  chunk_index <$> sample_course_chunks course lc =
  seq 0 (length (sample_course_chunks course lc)).
Proof.
  unfold sample_course_chunks.
  destruct (lessons_fold_spec (title course) lc (lessons course) [])
    as (new & -> & Hidx & _). done.
Qed.

(** X13: Chunking loses, adds and reorders nothing: the words of the chunks,
    read in order, are the words of the lessons' texts, lesson after
    lesson. *)
Theorem sample_chunks_keep_the_words course lc :
  concat ((fun ch => words (chunk_content ch)) <$>
            sample_course_chunks course lc) =
  concat ((fun l => words (lesson_content lc (lesson_number l))) <$>
            lessons course).
Proof.
  unfold sample_course_chunks.
  destruct (lessons_fold_spec (title course) lc (lessons course) [])
    as (new & -> & _ & Hw & _). done.
Qed.

(** X14: Every chunk of the fixture belongs to the course and to one of its
    lessons, and holds between one and five words. *)
Theorem sample_chunks_are_small_and_tagged course lc :
  Forall (fun ch =>
            course_title ch = title course /\
            (exists l, l ∈ lessons course /\
                       chunk_lesson_number ch = Some (lesson_number l)) /\
            (1 <= length (words (chunk_content ch)) <= 5)%nat)
    (sample_course_chunks course lc).
Proof.
  unfold sample_course_chunks.
  destruct (lessons_fold_spec (title course) lc (lessons course) [])
    as (new & -> & _ & _ & Hall). done.
Qed.

(** The fixture itself: the sample course with its two lesson texts
    gives 4 + 4 chunks. *)
Example sample_fixture :
  let course :=
    mkCourse "Test Course" (Some "https://example.com/course")
      (Some "Test Instructor")
      [mkLesson 0 "Introduction" (Some "https://example.com/lesson0");
       mkLesson 1 "Basic Concepts" (Some "https://example.com/lesson1")] in
  let lc : gmap Z string :=
    {[ 0 := "Welcome to this course about testing. This lesson introduces basic concepts of testing frameworks and methodologies.";
       1 := "This lesson covers basic concepts of testing frameworks. We explore unit testing, integration testing, and best practices." ]} in
  (fun ch => (chunk_index ch, chunk_lesson_number ch, chunk_content ch)) <$>
    sample_course_chunks course lc =
  [(0%nat, Some 0, "Welcome to this course about");
   (1%nat, Some 0, "testing. This lesson introduces basic");
   (2%nat, Some 0, "concepts of testing frameworks and");
   (3%nat, Some 0, "methodologies.");
   (4%nat, Some 1, "This lesson covers basic concepts");
   (5%nat, Some 1, "of testing frameworks. We explore");
   (6%nat, Some 1, "unit testing, integration testing, and");
   (7%nat, Some 1, "best practices.")].
Proof. vm_compute. reflexivity. Qed.

End FixturesFacts.

(** * Further scripted runs of the generator *)

Module AIGeneratorMoreScenarios.

Import AIGenerator AIGeneratorFacts Mock.

(** Two requested calls, the first of which raises: both ids are
    answered, in order. *)
Lemma tool_results_answer_each_request_witness :
  exists st' res,
    _execute_tools
      (mkResponse "tool_use"
         [ToolUseBlock "tool1" "search_course_content" [("query", "first")];
          ToolUseBlock "tool2" "get_course_outline"
            [("course_name", "Test Course")]])
      (Some tool_manager)
      (start [] [Raised (Raise "Exception" "Tool failed");
                 Returned "Outline result"]) =
    (st', Returned res) /\
    tool_use_id <$> results_list res = ["tool1"; "tool2"].
Proof.
  destruct (tool_results_answer_each_request (ToolDef := ToolDef)
              (mkResponse "tool_use"
                 [ToolUseBlock "tool1" "search_course_content"
                    [("query", "first")];
                  ToolUseBlock "tool2" "get_course_outline"
                    [("course_name", "Test Course")]])
              (Some tool_manager)
              (start [] [Raised (Raise "Exception" "Tool failed");
                         Returned "Outline result"]) eq_refl)
    as (st' & out & E & Hids & _).
  vm_compute in E. injection E as <- <-.
  eexists _, _. split; [reflexivity|]. exact (proj1 Hids).
Defined.

(** [test_generate_response_with_tools_no_tool_use]: tools are offered
    and a tool manager is there, but the model answers directly. *)
Lemma no_tool_use_reply_no_tool_execution_witness :
  let out := generate "General knowledge query" None
               (Some ["test_tool"]) (Some tool_manager)
               [Returned (text_reply "Direct answer without tools.")]
               [Returned "unused"] in
  tool_calls out.1 = [] /\ length (api_calls out.1) = 1%nat /\
  out.2 = Returned "Direct answer without tools.".
Proof.
  cbv zeta. unfold generate.
  destruct (no_tool_use_reply_no_tool_execution prompt model create
              "General knowledge query" None (Some ["test_tool"])
              (Some tool_manager)
              (start [Returned (text_reply "Direct answer without tools.")]
                 [Returned "unused"])) as (E & Htools & _).
  { intros w1 r1 [= _ <-]. discriminate. }
  split; [exact Htools|]. rewrite E. split; reflexivity.
Defined.

End AIGeneratorMoreScenarios.
